(** * google-meet-slack-bot: the two slash-command handlers of [app.py]

    A shallow embedding of [handle_reg_prefix] and [handle_mtg_command]
    together with the helpers they call ([get_user_email],
    [get_meet_space_id], [enable_meet_auto_artifact]), followed by the
    properties of the command parser, of the per-channel prefix store and
    of the scheduling pipeline.

    Python [str] values are sequences of Unicode code points; they are
    modelled as lists of code points so that the character classes of the
    regular expressions (whitespace, digit, dot, negated classes) and of
    [str.strip] range over what the interpreter really sees (a full-width
    space or digit in a Japanese meeting title is a single character). *)

From Stdlib Require Import ZArith NArith Ascii String.
From stdpp Require Import base option list sorting gmap.

Local Open Scope N_scope.

(** ** Strings *)

Definition char := N.
Abbreviation str := (list char).

(** The prefix files of the storage directory: path to content. *)
Abbreviation Files := (gmap str str).

(** Literals of the source file are UTF-8; [u] decodes one into its code
    points (literals are well formed, so the decoder is lenient). *)
Fixpoint utf8_decode (bs : list N) : str :=
  match bs with
  | [] => []
  | b :: r =>
      if b <? 128 then b :: utf8_decode r
      else if b <? 224 then
        match r with
        | b1 :: r1 => ((b - 192) * 64 + (b1 - 128)) :: utf8_decode r1
        | _ => []
        end
      else if b <? 240 then
        match r with
        | b1 :: b2 :: r2 =>
            ((b - 224) * 4096 + (b1 - 128) * 64 + (b2 - 128)) :: utf8_decode r2
        | _ => []
        end
      else
        match r with
        | b1 :: b2 :: b3 :: r3 =>
            ((b - 240) * 262144 + (b1 - 128) * 4096 + (b2 - 128) * 64 + (b3 - 128))
              :: utf8_decode r3
        | _ => []
        end
  end.

Definition u (s : string) : str :=
  utf8_decode (map N_of_ascii (list_ascii_of_string s)).
Arguments u s%_string : simpl never.

Definition ch_nl : char := 10.
Definition ch_quote : char := 34.
Definition ch_slash : char := 47.
Definition ch_lt : char := 60.
Definition ch_gt : char := 62.
Definition ch_at : char := 64.
Definition ch_bar : char := 124.

(** Truthiness of a Python string: [if s:] holds for a non-empty [s]. *)
Definition truthy (s : str) : bool :=
  match s with [] => false | _ :: _ => true end.

(** Truthiness of [x] where [x] is a string or [None]. *)
Definition truthy_opt (o : option str) : bool :=
  match o with Some s => truthy s | None => false end.

(** [", ".join(l)]. *)
Fixpoint join (sep : str) (l : list str) : str :=
  match l with
  | [] => []
  | [x] => x
  | x :: r => x ++ sep ++ join sep r
  end.

(** Decimal rendering of a non-negative integer, as [f"{n}"] does. *)
Fixpoint digits_fuel (fuel : nat) (n : N) (acc : str) : str :=
  match fuel with
  | O => acc
  | S f =>
      let acc' := (48 + n mod 10) :: acc in
      if n <? 10 then acc' else digits_fuel f (n / 10) acc'
  end.

Definition str_of_N (n : N) : str := digits_fuel (S (N.to_nat (N.log2 n))) n [].

Definition str_of_Z (z : Z) : str :=
  match z with
  | Zneg p => 45 :: str_of_N (Npos p)
  | _ => str_of_N (Z.to_N z)
  end.

(** ** The outside world

    Everything a handler calls outside the module (the Slack client, the
    lock, the file system, the clock and the Google services) answers
    through [Env]; an answer is a value or an exception.  What happens to
    the files is state; every outside call is recorded in the trace, in
    the order in which the handler makes it. *)

Inductive exn_class :=
| Timeout                                  (* filelock.Timeout *)
| PermissionError
| HttpError (resp : gmap str str) (content : str)
    (* googleapiclient.errors.HttpError: [error.resp], the mapping that
       describes the response, and [error.content], its body *)
| RequestException                         (* requests.exceptions.RequestException *)
| OverflowError
| OtherException.

(** An exception: its class and [str(e)]. *)
Record exn := { exn_cls : exn_class; exn_str : str }.

Record UserInfo := {
  ui_ok : bool;
  ui_email : option str;      (* user.profile.email *)
  ui_is_admin : bool;
  ui_is_owner : bool;
}.

Record ConvInfo := {
  ci_ok : bool;
  ci_creator : option str;    (* channel.creator *)
}.

Record HttpResponse := {
  status_code : Z;
  json_name : exn + option str;   (* response.json().get('name') *)
  text : str;
}.

Record EventBody := {
  summary : str;
  description : str;
  start_dateTime : str;
  end_dateTime : str;
  attendees : list str;
  requestId : str;
}.

Record CreatedEvent := {
  htmlLink : option str;
  hangoutLink : option str;
  conferenceId : option str;
}.

Record Env := {
  GOOGLE_WORKSPACE_DOMAIN : str;
  users_info : str -> exn + UserInfo;
  conversations_info : str -> exn + ConvInfo;
  (** [FileLock(path, timeout=3).__enter__]: [None] when the lock is
      acquired within the bound, the exception raised otherwise *)
  lock_acquire : str -> option exn;
  os_remove_error : str -> option exn;
  open_write_error : str -> option exn;
  (** [open(path, 'r', encoding='utf-8')] and [read] failing (access
      rights, bytes that do not decode) *)
  open_read_error : str -> option exn;
  (** [datetime.now(timezone.utc)], microseconds since the epoch *)
  now : Z;
  credentials_error : str -> option exn;
  calendar_service_error : option exn;
  events_insert : EventBody -> exn + CreatedEvent;
  requests_get : str -> exn + HttpResponse;
  requests_patch : str -> exn + HttpResponse;
}.

Inductive Event :=
| EvAck
| EvUsersInfo (user : str)
| EvConversationsInfo (channel : str)
| EvLockAcquire (path : str)
| EvLockRelease (path : str)
| EvExists (path : str)
| EvRemove (path : str)
| EvOpenWrite (path : str) (data : str)
| EvOpenRead (path : str)
| EvCredentials (subject : str)
| EvCalendarService
| EvEventsInsert (body : EventBody)
| EvHttpGet (url : str)
| EvHttpPatch (url : str) (updateMask : str)
| EvRespond (message : str) (response_type : option str).

(** How a block of the handler ends: with a value, by [return] (the
    handler is left, no [except] clause sees it), or by an exception. *)
Inductive Res (A : Type) :=
| Val (a : A)
| Returned
| Raised (e : exn).
Arguments Val {A} a.
Arguments Returned {A}.
Arguments Raised {A} e.


Definition M (A : Type) : Type := Files -> Res A * Files * list Event.

Definition M_ret_def {A} (a : A) : M A := fun fs => (Val a, fs, []).

Definition M_bind_def {A B} (f : A -> M B) (m : M A) : M B := fun fs =>
  match m fs with
  | (Val a, fs1, t1) =>
      match f a fs1 with
      | (r, fs2, t2) => (r, fs2, t1 ++ t2)
      end
  | (Returned, fs1, t1) => (Returned, fs1, t1)
  | (Raised e, fs1, t1) => (Raised e, fs1, t1)
  end.

#[global] Instance M_ret : MRet M := @M_ret_def.
#[global] Instance M_bind : MBind M := @M_bind_def.

(** [return] *)
Definition return_ {A} : M A := fun fs => (Returned, fs, []).
(** [raise e] *)
Definition raise {A} (e : exn) : M A := fun fs => (Raised e, fs, []).
Definition emit (ev : Event) : M unit := fun fs => (Val tt, fs, [ev]).
Definition get_files : M Files := fun fs => (Val fs, fs, []).
Definition modify_files (f : Files -> Files) : M unit := fun fs => (Val tt, f fs, []).

(** [try: body  except Exception as e: handler e] *)
Definition try_except {A} (body : M A) (handler : exn -> M A) : M A := fun fs =>
  match body fs with
  | (Raised e, fs1, t1) =>
      match handler e fs1 with
      | (r, fs2, t2) => (r, fs2, t1 ++ t2)
      end
  | r => r
  end.

(** An outside call that answers with a value or raises. *)
Definition call {A} (ev : Event) (answer : exn + A) : M A :=
  emit ev ;; match answer with inl e => raise e | inr a => mret a end.

Definition attempt (ev : Event) (failure : option exn) : M unit :=
  emit ev ;; match failure with Some e => raise e | None => mret tt end.

Record Command := {
  cmd_user_id : str;
  cmd_channel_id : str;
  cmd_text : str;
}.

Definition STORAGE_DIR : str := u "/etc/GoogleMeetEventCreater/".
Definition MEET_API_BASE_URL : str := u "https://meet.googleapis.com/v2".
Definition in_channel : option str := Some (u "in_channel").

(** [os.path.join(a, b)] on POSIX *)
Definition os_path_join (a b : str) : str :=
  match b with
  | c :: _ => if c =? ch_slash then b else
      match last a with
      | Some d => if d =? ch_slash then a ++ b else a ++ [ch_slash] ++ b
      | None => b
      end
  | [] =>
      match last a with
      | Some d => if d =? ch_slash then a else a ++ [ch_slash]
      | None => []
      end
  end.

(** [s.split('@')] *)
Fixpoint split_at (s : str) : list str :=
  match s with
  | [] => [[]]
  | c :: r =>
      if c =? ch_at then [] :: split_at r
      else match split_at r with
           | seg :: segs => (c :: seg) :: segs
           | [] => [[c]]
           end
  end.

(** ** The interpreter's tables and library functions

    The Unicode database ([\s], [\d], [int], [str.lower]) and the
    formatting routines of [datetime] belong to the interpreter, not to
    the repository: they are taken as parameters.  The ASCII range, which
    does not depend on the Unicode version, is written out. *)

Record PyRuntime := {
  (** [Py_UNICODE_ISSPACE] above U+007F *)
  unicode_space : char -> bool;
  (** [Py_UNICODE_TODECIMAL] above U+007F: the value of a decimal digit *)
  unicode_decimal : char -> option N;
  (** [str.lower] *)
  str_lower : str -> str;
  (** [datetime.isoformat], microseconds since the epoch, UTC *)
  isoformat : Z -> str;
  (** [datetime.timestamp] rendered by an f-string *)
  timestamp_str : Z -> str;
  (** [astimezone(JST).strftime('%Y-%m-%d %H:%M')] *)
  strftime_jst_date : Z -> str;
  (** [astimezone(JST).strftime('%H:%M')] *)
  strftime_jst_time : Z -> str;
}.

Section Runtime.

Variable py : PyRuntime.

Definition is_space (c : char) : bool :=
  if c <? 128
  then ((9 <=? c) && (c <=? 13)) || ((28 <=? c) && (c <=? 32))
  else unicode_space py c.

Definition decimal_value (c : char) : option N :=
  if c <? 128
  then (if (48 <=? c) && (c <=? 57) then Some (c - 48) else None)
  else unicode_decimal py c.

Definition is_digit (c : char) : bool :=
  match decimal_value c with Some _ => true | None => false end.

(** [str.strip()] *)
Fixpoint lstrip (s : str) : str :=
  match s with
  | c :: r => if is_space c then lstrip r else s
  | [] => []
  end.

Definition rstrip (s : str) : str := rev (lstrip (rev s)).

Definition strip (s : str) : str := rstrip (lstrip s).

(** [int(s)] on a run of decimal digits (the limit some interpreter
    versions put on the number of digits is left out). *)
Definition int_of_digits (s : str) : Z :=
  fold_left (fun acc c => (10 * acc + Z.of_N (default 0%N (decimal_value c)))%Z) s 0%Z.

(** ** Regular expressions

    [re.match] and [re.findall] are backtracking matchers.  Each pattern
    of the source is written with the combinators below, one per regex
    construct, in continuation-passing style: a combinator hands what it
    consumed and the rest of the subject to its continuation and, when
    the continuation fails, backtracks as the greedy quantifiers do
    (longest repetition first). *)

Section Regex.
Context {A : Type}.

(** a literal character *)
Definition re_lit (c : char) (s : str) (k : str -> option A) : option A :=
  match s with
  | c' :: r => if c' =? c then k r else None
  | [] => None
  end.

(** a single character of a class *)
Definition re_class (p : char -> bool) (s : str) (k : char -> str -> option A)
  : option A :=
  match s with
  | c :: r => if p c then k c r else None
  | [] => None
  end.

(** [p*], greedy *)
Fixpoint re_star (p : char -> bool) (s : str) (k : str -> str -> option A)
  : option A :=
  match s with
  | c :: r =>
      if p c then
        match re_star p r (fun m rest => k (c :: m) rest) with
        | Some x => Some x
        | None => k [] s
        end
      else k [] s
  | [] => k [] []
  end.

(** [p+], greedy *)
Definition re_plus (p : char -> bool) (s : str) (k : str -> str -> option A)
  : option A :=
  match s with
  | c :: r => if p c then re_star p r (fun m rest => k (c :: m) rest) else None
  | [] => None
  end.

(** [(?:e)?], greedy: try [e], then the empty match *)
Definition re_opt (e : str -> (str -> option A) -> option A) (s : str)
  (k : str -> option A) : option A :=
  match e s k with
  | Some x => Some x
  | None => k s
  end.

(** [$] without MULTILINE: the end of the subject, or just before a
    newline that ends it *)
Definition re_eol (s : str) (x : A) : option A :=
  match s with
  | [] => Some x
  | [c] => if c =? ch_nl then Some x else None
  | _ => None
  end.
End Regex.

Definition not_quote (c : char) : bool := negb (c =? ch_quote).
Definition not_space (c : char) : bool := negb (is_space c).
(** [.] without DOTALL *)
Definition not_newline (c : char) : bool := negb (c =? ch_nl).
Definition not_gt (c : char) : bool := negb (c =? ch_gt).
(** [[UW]] *)
Definition is_UW (c : char) : bool := (c =? 85) || (c =? 87).
(** [[A-Z0-9]] *)
Definition is_AZ09 (c : char) : bool :=
  ((65 <=? c) && (c <=? 90)) || ((48 <=? c) && (c <=? 57)).

(** Groups 1, 2 and 3 of a successful match. *)
Definition groups : Type := str * str * str.

(** [re.match] of [command_text] against the pattern of line 296,
    [^Q ([^Q]+) Q \s+ (\d+) \s* ( .* ) $], spaced out here, where Q stands
    for the double-quote character *)
Definition quoted_match (text : str) : option groups :=
  re_lit ch_quote text (fun s1 =>
  re_plus not_quote s1 (fun g1 s2 =>
  re_lit ch_quote s2 (fun s3 =>
  re_plus is_space s3 (fun _ s4 =>
  re_plus is_digit s4 (fun g2 s5 =>
  re_star is_space s5 (fun _ s6 =>
  re_star not_newline s6 (fun g3 s7 =>
  re_eol s7 (g1, g2, g3)))))))).

(** [re.match] of [command_text] against the pattern of line 299,
    [^ (\S+) \s+ (\d+) \s* ( .* ) $] *)
Definition unquoted_match (text : str) : option groups :=
  re_plus not_space text (fun g1 s2 =>
  re_plus is_space s2 (fun _ s3 =>
  re_plus is_digit s3 (fun g2 s4 =>
  re_star is_space s4 (fun _ s5 =>
  re_star not_newline s5 (fun g3 s6 =>
  re_eol s6 (g1, g2, g3)))))).

(** One match of [<@([UW][A-Z0-9]+)(?:\|[^>]+)?>] at the start of [s]:
    group 1 and what follows the match. *)
Definition mention_match (s : str) : option (str * str) :=
  re_lit ch_lt s (fun s1 =>
  re_lit ch_at s1 (fun s2 =>
  re_class is_UW s2 (fun c s3 =>
  re_plus is_AZ09 s3 (fun m s4 =>
  re_opt (fun s5 k =>
            re_lit ch_bar s5 (fun s6 =>
            re_plus not_gt s6 (fun _ s7 => k s7)))
         s4 (fun s8 =>
  re_lit ch_gt s8 (fun s9 => Some (c :: m, s9))))))).

(** [re.findall]: scan from the left; after a match resume behind it,
    otherwise move one character on.  [skip] counts the characters of the
    current match still to be passed over. *)
Fixpoint findall_from (skip : nat) (s : str) : list str :=
  match s with
  | [] => []
  | _ :: r =>
      match skip with
      | S n => findall_from n r
      | O =>
          match mention_match s with
          | Some (g, rest) => g :: findall_from (length r - length rest) r
          | None => findall_from 0 r
          end
      end
  end.

Definition findall_mentions (s : str) : list str := findall_from 0 s.

(** ** The command parser (the first half of [handle_mtg_command])

    What the parsing block leaves in [meeting_title], [duration_minutes]
    and [mentions_text], or the usage hint it sends back. *)

Record MeetingRequest := {
  meeting_title : str;
  duration_minutes : Z;
  mentions_text : str;
}.

Inductive parse_result :=
| Parsed (r : MeetingRequest)
| MalformedCommand (hint : str).

Definition usage_hint : str :=
  u "コマンドの形式が正しくありません。" ++ [ch_nl] ++
  u "形式:" ++ [ch_nl] ++
  u "  `/mtg " ++ [ch_quote] ++ u "会議名にスペースを含む場合" ++ [ch_quote] ++
  u " 会議時間(分) [@ゲスト...]`" ++ [ch_nl] ++
  u "または" ++ [ch_nl] ++
  u "  `/mtg 会議名スペースなし 会議時間(分) [@ゲスト...]`".

Definition request_of (g : groups) : MeetingRequest :=
  let '(g1, g2, g3) := g in
  {| meeting_title := g1; duration_minutes := int_of_digits g2; mentions_text := g3 |}.

Definition parse_command (command_text : str) : parse_result :=
  match quoted_match command_text with
  | Some g => Parsed (request_of g)
  | None =>
      match unquoted_match command_text with
      | Some g => Parsed (request_of g)
      | None => MalformedCommand usage_hint
      end
  end.

(** ** The handlers *)

Section Handlers.

Variable E : Env.

Definition ack : M unit := emit EvAck.

(** [FileNotFoundError] *)
Definition file_not_found : exn :=
  {| exn_cls := OtherException; exn_str := u "[Errno 2] No such file or directory" |}.

(** [respond(text=..., response_type=...)]; without [response_type] the
    reply is visible to the invoking user only.  The call itself is taken
    to succeed. *)
Definition respond (message : str) (response_type : option str) : M unit :=
  emit (EvRespond message response_type).

Definition client_users_info (user : str) : M UserInfo :=
  call (EvUsersInfo user) (users_info E user).

Definition client_conversations_info (channel : str) : M ConvInfo :=
  call (EvConversationsInfo channel) (conversations_info E channel).

(** [with FileLock(path, timeout=3): body]: one bounded attempt to take
    the lock; the lock is released however the body ends. *)
Definition with_FileLock {A} (path : str) (body : M A) : M A := fun fs =>
  match attempt (EvLockAcquire path) (lock_acquire E path) fs with
  | (Val _, fs1, t1) =>
      match body fs1 with
      | (r, fs2, t2) => (r, fs2, t1 ++ t2 ++ [EvLockRelease path])
      end
  | (Returned, fs1, t1) => (Returned, fs1, t1)
  | (Raised e, fs1, t1) => (Raised e, fs1, t1)
  end.

Definition os_path_exists (path : str) : M bool :=
  emit (EvExists path) ;;
  fs ← get_files;
  mret (bool_decide (is_Some (fs !! path))).

Definition os_remove (path : str) : M unit :=
  attempt (EvRemove path) (os_remove_error E path) ;;
  fs ← get_files;
  match fs !! path with
  | Some _ => modify_files (delete path)
  | None => raise file_not_found
  end.

(** [with open(path, 'w', encoding='utf-8') as f: f.write(data)]; a
    failure is one of [open], before the file is touched *)
Definition open_write (path : str) (data : str) : M unit :=
  attempt (EvOpenWrite path data) (open_write_error E path) ;;
  modify_files (insert path data).

(** [with open(path, 'r', encoding='utf-8') as f: f.read()] *)
Definition open_read (path : str) : M str :=
  attempt (EvOpenRead path) (open_read_error E path) ;;
  fs ← get_files;
  match fs !! path with
  | Some data => mret data
  | None => raise file_not_found
  end.

(** *** [get_user_email] *)
Definition get_user_email (user_id : str) : M (option str) :=
  try_except
    (user_info ← client_users_info user_id;
     if ui_ok user_info && truthy_opt (ui_email user_info)
     then mret (ui_email user_info)
     else mret None)
    (fun _ => mret None).

(** *** [get_meet_space_id]: the space name, or an error message *)
Definition get_meet_space_id (conference_id : option str)
  : M (option str * option str) :=
  if negb (truthy_opt conference_id) then
    mret (None, Some (u "会議IDが不明です"))
  else
    let cid := default [] conference_id in
    let url := MEET_API_BASE_URL ++ u "/spaces/" ++ cid in
    try_except
      (response ← call (EvHttpGet url) (requests_get E url);
       if (status_code response =? 200)%Z then
         space_name ← match json_name response with
                      | inl e => raise e
                      | inr n => mret n
                      end;
         if truthy_opt space_name then mret (space_name, None)
         else mret (None, Some (u "Meetスペース情報の取得に失敗しました(レスポンス不正): " ++ cid))
       else if (status_code response =? 404)%Z then
         mret (None, Some (u "Meetスペースが見つかりません(404): " ++ cid))
       else
         mret (None, Some (u "Meetスペース情報取得エラー(" ++ str_of_Z (status_code response)
                           ++ u "): " ++ cid)))
      (fun e =>
         match exn_cls e with
         | RequestException =>
             mret (None, Some (u "Meet API呼び出し中に通信エラーが発生しました: " ++ exn_str e))
         | _ =>
             mret (None, Some (u "Meetスペース情報取得中に予期せぬエラーが発生しました: " ++ exn_str e))
         end).

(** *** [enable_meet_auto_artifact]: success, or an error message *)
Definition updateMask_artifacts : str :=
  u "config.artifactConfig.recordingConfig.autoRecordingGeneration,config.artifactConfig.transcriptionConfig.autoTranscriptionGeneration,config.artifactConfig.smartNotesConfig.autoSmartNotesGeneration".

Definition enable_meet_auto_artifact (space_id : option str)
  : M (bool * option str) :=
  if negb (truthy_opt space_id) then
    mret (false, Some (u "MeetスペースIDが不明です"))
  else
    let sid := default [] space_id in
    let url := MEET_API_BASE_URL ++ u "/" ++ sid in
    try_except
      (response ← call (EvHttpPatch url updateMask_artifacts) (requests_patch E url);
       if (200 <=? status_code response)%Z && (status_code response <? 300)%Z then
         mret (true, None)
       else
         let error_msg :=
           u "Meet自動録画設定エラー(" ++ str_of_Z (status_code response) ++ u "): " ++ sid
           ++ u ", Response: " ++ text response in
         if (status_code response =? 403)%Z then
           mret (false, Some (error_msg ++
             u " (権限不足の可能性があります。Meet APIスコープとWorkspace設定を確認してください)"))
         else mret (false, Some error_msg))
      (fun e =>
         match exn_cls e with
         | RequestException =>
             mret (false, Some (u "Meet API呼び出し中に通信エラーが発生しました: " ++ exn_str e))
         | _ =>
             mret (false, Some (u "Meet自動録画設定中に予期せぬエラーが発生しました: " ++ exn_str e))
         end).

(** *** [handle_reg_prefix] *)

Definition prefix_filepath (channel_id : str) : str :=
  os_path_join STORAGE_DIR (channel_id ++ u ".txt").

(** The permission check (lines 187-220). *)
Definition check_permission (user_id channel_id : str) : M unit :=
  try_except
    (user_info ← client_users_info user_id;
     let is_admin := ui_is_admin user_info in
     let is_owner := ui_is_owner user_info in
     is_creator ← try_except
       (conv_info ← client_conversations_info channel_id;
        if ci_ok conv_info
        then mret (bool_decide (ci_creator conv_info = Some user_id))
        else mret false)
       (fun _ => mret false);
     if negb (is_admin || is_owner || is_creator) then
       respond (u "このコマンドを実行する権限がありません。Slackの管理者/オーナー、またはこのチャンネルの作成者のみが実行できます。") None ;;
       return_
     else mret tt)
    (fun _ =>
       respond (u "ユーザー権限の確認中にエラーが発生しました。") None ;;
       return_).

(** The locked block (lines 227-237): clear the record when the text is
    empty, write the text otherwise. *)
Definition set_prefix (channel_id prefix_text : str) : M unit :=
  let filepath := prefix_filepath channel_id in
  let filepath_lock := filepath ++ u ".lock" in
  with_FileLock filepath_lock
    (if negb (truthy prefix_text) then
       present ← os_path_exists filepath;
       if present : bool then os_remove filepath else mret tt
     else
       open_write filepath prefix_text).

Definition handle_reg_prefix (command : Command) : M unit :=
  ack ;;
  let user_id := cmd_user_id command in
  let channel_id := cmd_channel_id command in
  let prefix_text := strip (cmd_text command) in
  check_permission user_id channel_id ;;
  try_except
    (set_prefix channel_id prefix_text ;;
     if negb (truthy prefix_text) then
       respond (u "<#" ++ channel_id ++ u "> の会議名プレフィックスを解除しました。") in_channel
     else
       respond (u "<#" ++ channel_id ++ u "> の会議名プレフィックスを `" ++ prefix_text
                ++ u "` に設定しました。") in_channel)
    (fun e =>
       match exn_cls e with
       | PermissionError =>
           respond (u "エラー: 設定ファイルの保存場所 (" ++ STORAGE_DIR
                    ++ u ") へのアクセス権限がありません。") None
       | Timeout =>
           respond (u "プレフィックスの設定/解除中にエラーが発生しました: " ++ exn_str e) None
       | _ =>
           respond (u "プレフィックスの設定/解除中にエラーが発生しました: " ++ exn_str e) None
       end).

(** *** [handle_mtg_command] *)

(** The block that reads the channel's prefix (lines 267-287). *)
Definition load_prefix (channel_id : str) : M str :=
  let filepath := prefix_filepath channel_id in
  let filepath_lock := filepath ++ u ".lock" in
  with_FileLock filepath_lock
    (present ← os_path_exists filepath;
     if present : bool then
       try_except
         (content ← open_read filepath;
          let loaded_prefix := strip content in
          if truthy loaded_prefix then mret loaded_prefix else mret [])
         (fun e =>
            match exn_cls e with
            | Timeout =>
                respond (u "プレフィックスの取得中にエラーが発生しました: " ++ exn_str e) None ;;
                return_
            | _ =>
                respond (u "プレフィックスの取得中にエラーが発生しました: " ++ exn_str e) None ;;
                return_
            end)
     else mret []).

(** [f"<@{mention_id}>"] *)
Definition mention (mention_id : str) : str := u "<@" ++ mention_id ++ u ">".

(** The loop over [mention_ids] (lines 345-356), with the two lists it
    appends to. *)
Fixpoint resolve_guests (user_id : str) (mention_ids : list str)
    (attendee_emails failed_guest_lookups : list str) : M (list str * list str) :=
  match mention_ids with
  | [] => mret (attendee_emails, failed_guest_lookups)
  | mention_id :: rest =>
      if bool_decide (mention_id = user_id) then
        resolve_guests user_id rest attendee_emails failed_guest_lookups
      else
        guest_email ← get_user_email mention_id;
        if truthy_opt guest_email then
          let email := default [] guest_email in
          if bool_decide (email ∈ attendee_emails)
          then resolve_guests user_id rest attendee_emails failed_guest_lookups
          else resolve_guests user_id rest (attendee_emails ++ [email]) failed_guest_lookups
        else
          resolve_guests user_id rest attendee_emails
            (failed_guest_lookups ++ [mention mention_id])
  end.

(** [datetime.max], microseconds since the epoch *)
Definition datetime_max : Z := 253402300799999999.
(** the offset of JST *)
Definition jst_offset : Z := 32400000000.

Definition overflow (msg : str) : exn := {| exn_cls := OverflowError; exn_str := msg |}.

(** Lines 365-372: [timedelta(minutes=...)] is limited to 999999999
    days, a [datetime] to the year 9999, also after the shift to JST. *)
Definition end_time (start_time_utc duration : Z) : exn + Z :=
  if (999999999 <? duration / 1440)%Z then
    inl (overflow (u "days=" ++ str_of_Z (duration / 1440)
                   ++ u "; must have magnitude <= 999999999"))
  else
    let end_time_utc := (start_time_utc + duration * 60000000)%Z in
    if (datetime_max <? end_time_utc + jst_offset)%Z
    then inl (overflow (u "date value out of range"))
    else inr end_time_utc.

(** [guest_list_str] (line 457) *)
Definition guest_list_str (user_id : str) (mention_ids : list str) : str :=
  match mention_ids with
  | [] => u "なし"
  | _ => join (u ", ")
           (mention <$> filter (fun mid => mid ≠ user_id) mention_ids)
  end.

(** The message of lines 463-471. *)
Definition meeting_details (final_meeting_title time_str user_id guests : str)
    (meet_url event_url : option str) : str :=
  u "✅ Googleカレンダーに予定を作成" ++ [ch_nl] ++
  u "*" ++ final_meeting_title ++ u "*" ++ [ch_nl] ++
  u "日時: " ++ time_str ++ [ch_nl] ++
  u "オーナー: <@" ++ user_id ++ u ">" ++ [ch_nl] ++
  u "ゲスト: " ++ guests ++ [ch_nl] ++
  u "Google Meet: "
    ++ (if truthy_opt meet_url then default [] meet_url else u "取得失敗") ++ [ch_nl] ++
  u "カレンダーで表示: "
    ++ (if truthy_opt event_url then default [] event_url else u "取得失敗").

(** What lines 474-475 append. *)
Definition recording_warning (recording_error_msg : option str) : str :=
  if truthy_opt recording_error_msg then
    [ch_nl] ++ u "自動録画: ⚠️ 設定に失敗しました (" ++ default [] recording_error_msg ++ u ")"
  else [].

(** What lines 478-479 append. *)
Definition guest_warning (failed_guest_lookups : list str) : str :=
  match failed_guest_lookups with
  | [] => []
  | _ =>
      [ch_nl; ch_nl]
        ++ u "⚠️ 注意: 次のゲストのメールアドレスが見つからず、招待できませんでした: "
        ++ join (u ", ") failed_guest_lookups
  end.

Definition success_message (final_meeting_title time_str user_id guests : str)
    (meet_url event_url recording_error_msg : option str)
    (failed_guest_lookups : list str) : str :=
  meeting_details final_meeting_title time_str user_id guests meet_url event_url
    ++ recording_warning recording_error_msg
    ++ guest_warning failed_guest_lookups.

(** The Meet block (lines 436-454): what is left in
    [recording_error_msg]. *)
Definition configure_artifacts (conference_id : option str) : M (option str) :=
  if truthy_opt conference_id then
    try_except
      ('(space_id, space_id_error) ← get_meet_space_id conference_id;
       if truthy_opt space_id then
         '(recording_configured, error_msg_on_fail) ← enable_meet_auto_artifact space_id;
         if negb recording_configured then mret error_msg_on_fail else mret None
       else mret space_id_error)
      (fun meet_error =>
         mret (Some (u "Meet API操作中に予期せぬエラーが発生しました: " ++ exn_str meet_error)))
  else
    mret (Some (u "会議IDがイベントから取得できなかったため、自動録画は設定されませんでした。")).

(** The parsing block (lines 290-321). *)
Definition parse_stage (command_text : str) : M MeetingRequest :=
  match parse_command command_text with
  | Parsed r => mret r
  | MalformedCommand error_message =>
      respond error_message None ;; return_
  end.

(** What the block of lines 323-362 leaves behind. *)
Record Identities := {
  owner_email : str;
  attendee_emails : list str;
  mention_ids : list str;
  failed_guest_lookups : list str;
}.

Definition resolve_identities (user_id mentions_text : str) : M Identities :=
  try_except
    (owner_email ← get_user_email user_id;
     (if negb (truthy_opt owner_email) then
        respond (mention user_id ++ u " のメールアドレスをSlackプロファイルから取得できませんでした。") None ;;
        return_
      else mret tt) ;;
     let owner_email := default [] owner_email in
     match split_at owner_email !! 1%nat with
     | Some user_domain =>
         if bool_decide (str_lower py user_domain ≠ str_lower py (GOOGLE_WORKSPACE_DOMAIN E))
         then
           respond (u "このコマンドは " ++ GOOGLE_WORKSPACE_DOMAIN E
                    ++ u " ドメインのユーザーのみ利用できます。") None ;;
           return_
         else mret tt
     | None =>
         respond (u "メールアドレスの形式が正しくありません。") None ;;
         return_
     end ;;
     let mention_ids := findall_mentions mentions_text in
     '(attendee_emails, failed_guest_lookups) ← resolve_guests user_id mention_ids [] [];
     mret {| owner_email := owner_email; attendee_emails := attendee_emails;
             mention_ids := mention_ids; failed_guest_lookups := failed_guest_lookups |})
    (fun _ =>
       respond (u "ユーザー情報の取得中にエラーが発生しました。") None ;;
       return_).

(** Lines 364-372. *)
Definition compute_end_time (start_time_utc duration_minutes : Z) : M Z :=
  match end_time start_time_utc duration_minutes with
  | inl e => raise e
  | inr t => mret t
  end.

(** Lines 374-381. *)
Definition authenticate (owner_email : str) : M unit :=
  try_except
    (attempt (EvCredentials owner_email) (credentials_error E owner_email) ;;
     attempt EvCalendarService (calendar_service_error E))
    (fun e =>
       respond (u "Google APIの認証に失敗しました: " ++ exn_str e) None ;;
       return_).

(** The text sent when the calendar call fails (lines 424-434). *)
Definition creation_error_message (error : exn) : str :=
  match exn_cls error with
  | HttpError resp _ =>
      let error_details := default (u "{}") (resp !! u "content") in
      u "Googleカレンダーへの予定作成中にエラーが発生しました: " ++ error_details
  | _ =>
      u "予期せぬエラーが発生しました(カレンダーイベント作成時): " ++ exn_str error
  end.

(** Lines 383-434. *)
Definition create_event (event_body : EventBody) : M CreatedEvent :=
  try_except
    (call (EvEventsInsert event_body) (events_insert E event_body))
    (fun error => respond (creation_error_message error) None ;; return_).

Definition event_body_of (user_id final_meeting_title : str) (start_time_utc end_time_utc : Z)
    (attendee_emails : list str) : EventBody :=
  {| summary := final_meeting_title;
     description := [];
     start_dateTime := isoformat py start_time_utc;
     end_dateTime := isoformat py end_time_utc;
     attendees := attendee_emails;
     requestId := user_id ++ u "-" ++ timestamp_str py start_time_utc |}.

Definition time_str (start_time_utc end_time_utc : Z) : str :=
  strftime_jst_date py start_time_utc ++ u " ～ " ++ strftime_jst_time py end_time_utc.

Definition handle_mtg_command (command : Command) : M unit :=
  ack ;;
  let user_id := cmd_user_id command in
  let channel_id := cmd_channel_id command in
  let command_text := strip (cmd_text command) in
  prefix ← load_prefix channel_id;
  request ← parse_stage command_text;
  ids ← resolve_identities user_id (mentions_text request);
  let start_time_utc := now E in
  end_time_utc ← compute_end_time start_time_utc (duration_minutes request);
  authenticate (owner_email ids) ;;
  let final_meeting_title := prefix ++ meeting_title request in
  created_event ← create_event
    (event_body_of user_id final_meeting_title start_time_utc end_time_utc
       (attendee_emails ids));
  let event_url := htmlLink created_event in
  let meet_url := hangoutLink created_event in
  let conference_id := conferenceId created_event in
  recording_error_msg ← configure_artifacts conference_id;
  respond (success_message final_meeting_title (time_str start_time_utc end_time_utc)
             user_id (guest_list_str user_id (mention_ids ids))
             meet_url event_url recording_error_msg (failed_guest_lookups ids))
          in_channel.

End Handlers.

End Runtime.

(** ** Sample data: the scenario of the specification *)

Definition py_ascii : PyRuntime := {|
  unicode_space := fun _ => false;
  unicode_decimal := fun _ => None;
  str_lower := fun s => s;
  isoformat := fun t => str_of_Z t;
  timestamp_str := fun t => str_of_Z t;
  strftime_jst_date := fun t => str_of_Z t;
  strftime_jst_time := fun t => str_of_Z t;
|}.

Definition user_profile (email : string) : exn + UserInfo :=
  inr {| ui_ok := true; ui_email := Some (u email); ui_is_admin := false; ui_is_owner := false |}.

Definition slack_error : exn := {| exn_cls := OtherException; exn_str := u "user_not_found" |}.

Definition demo_event : CreatedEvent := {|
  htmlLink := Some (u "https://calendar.example/e1");
  hangoutLink := Some (u "https://meet.example/abc-defg-hij");
  conferenceId := Some (u "abc-defg-hij");
|}.

Definition lock_timeout : exn :=
  {| exn_cls := Timeout;
     exn_str := u "The file lock '/etc/GoogleMeetEventCreater/C42.txt.lock' could not be acquired." |}.

Definition forbidden : exn :=
  {| exn_cls :=
       HttpError {[ u "status" := u "403"; u "content" := u "{ error: forbidden }" ]}
         (u "{ error: forbidden }");
     exn_str := u "<HttpError 403>" |}.

Definition connection_reset : exn :=
  {| exn_cls := OtherException; exn_str := u "Connection reset by peer" |}.

(** An [HttpError] as the Google client raises it: the response mapping
    holds the status and the headers, the body is [error.content]. *)
Definition rate_limited : exn :=
  {| exn_cls :=
       HttpError {[ u "status" := u "403"; u "content-type" := u "application/json" ]}
         (u "{ error: rateLimitExceeded }");
     exn_str := u "<HttpError 403 when requesting the calendar returned Rate Limit Exceeded>" |}.

Definition response (status : Z) (name : option str) : exn + HttpResponse :=
  inr {| status_code := status; json_name := inr name; text := [] |}.

(** The scenario, with the answers of the lock, of the calendar and of
    the space lookup left open. *)
Definition demo_env_with (lock : option exn) (insert : exn + CreatedEvent)
    (space : exn + HttpResponse) : Env := {|
  GOOGLE_WORKSPACE_DOMAIN := u "org.com";
  users_info := fun uid =>
    if bool_decide (uid = u "U001") then user_profile "alice@org.com"
    else if bool_decide (uid = u "U123") then user_profile "bob@org.com"
    else if bool_decide (uid = u "W456") then user_profile "bob@org.com"
    else inl slack_error;
  conversations_info := fun _ => inr {| ci_ok := true; ci_creator := Some (u "U001") |};
  lock_acquire := fun _ => lock;
  os_remove_error := fun _ => None;
  open_write_error := fun _ => None;
  open_read_error := fun _ => None;
  now := 1700000000000000;
  credentials_error := fun _ => None;
  calendar_service_error := None;
  events_insert := fun _ => insert;
  requests_get := fun _ => space;
  requests_patch := fun _ => response 200 None;
|}.

Definition demo_env : Env :=
  demo_env_with None (inr demo_event) (response 200 (Some (u "spaces/s1"))).

Definition demo_command : Command := {|
  cmd_user_id := u "U001";
  cmd_channel_id := u "C42";
  cmd_text := [ch_quote] ++ u "Weekly Sync" ++ [ch_quote] ++ u " 30 <@U123> <@U001> <@W456> <@U999>";
|}.

Definition demo_files : Files := {[ prefix_filepath (u "C42") := u "  [dev] " ]}.

(** The scenario with another directory entry for the owner, another
    answer of [open] and other answers of the Google client. *)
Definition demo_env_where (owner_address : string) (read credentials : option exn)
    (created : CreatedEvent) : Env := {|
  GOOGLE_WORKSPACE_DOMAIN := GOOGLE_WORKSPACE_DOMAIN demo_env;
  users_info := fun uid =>
    if bool_decide (uid = u "U001") then user_profile owner_address
    else users_info demo_env uid;
  conversations_info := conversations_info demo_env;
  lock_acquire := lock_acquire demo_env;
  os_remove_error := os_remove_error demo_env;
  open_write_error := open_write_error demo_env;
  open_read_error := fun _ => read;
  now := now demo_env;
  credentials_error := fun _ => credentials;
  calendar_service_error := calendar_service_error demo_env;
  events_insert := fun _ => inr created;
  requests_get := requests_get demo_env;
  requests_patch := requests_patch demo_env;
|}.

(** ** The two grammars, in the words of the specification

    These two predicates follow the specification (section 4.1), not the
    code: a quoted segment or a whitespace-free word, then whitespace,
    then a run of decimal digits, then whatever remains. *)



(** ** Notions used in the statements *)

(** The three components of a run. *)
Definition outcome {A} (x : Res A * Files * list Event) : Res A := x.1.1.
Definition files_after {A} (x : Res A * Files * list Event) : Files := x.1.2.
Definition trace {A} (x : Res A * Files * list Event) : list Event := x.2.

(** The lock file of a channel's record. *)
Definition prefix_lockpath (channel_id : str) : str :=
  prefix_filepath channel_id ++ u ".lock".

(** What the directory answers for a handle, as [get_user_email] reads
    it: an address only when the call succeeds and the profile carries a
    non-empty one. *)
Definition directory_email (E : Env) (user_id : str) : option str :=
  match users_info E user_id with
  | inr user_info =>
      if ui_ok user_info && truthy_opt (ui_email user_info)
      then ui_email user_info else None
  | inl _ => None
  end.

(** The stage of the pipeline to which an outside call belongs: 0 the
    acknowledgement, 1 the prefix store, 2 the directory, 3 the Google
    credentials, 4 the creation of the event, 5 the lookup of the space,
    6 the artifact update, 7 a reply. *)
Definition stage (ev : Event) : nat :=
  match ev with
  | EvAck => 0
  | EvLockAcquire _ | EvLockRelease _ | EvExists _ | EvRemove _
  | EvOpenWrite _ _ | EvOpenRead _ => 1
  | EvUsersInfo _ | EvConversationsInfo _ => 2
  | EvCredentials _ | EvCalendarService => 3
  | EvEventsInsert _ => 4
  | EvHttpGet _ => 5
  | EvHttpPatch _ _ => 6
  | EvRespond _ _ => 7
  end.

Definition is_reply (ev : Event) : Prop := stage ev = 7%nat.

#[global] Instance is_reply_dec ev : Decision (is_reply ev).
Proof. unfold is_reply. apply _. Defined.



(** The two lists the loop over the mentions builds, as a function of
    the directory's answers. *)
Fixpoint guest_lists (E : Env) (user_id : str) (mention_ids attendee_emails failed : list str)
  : list str * list str :=
  match mention_ids with
  | [] => (attendee_emails, failed)
  | mention_id :: rest =>
      if bool_decide (mention_id = user_id) then
        guest_lists E user_id rest attendee_emails failed
      else
        match directory_email E mention_id with
        | Some email =>
            if bool_decide (email ∈ attendee_emails)
            then guest_lists E user_id rest attendee_emails failed
            else guest_lists E user_id rest (attendee_emails ++ [email]) failed
        | None =>
            guest_lists E user_id rest attendee_emails (failed ++ [mention mention_id])
        end
  end.

Definition auth_error_message (e : exn) : str :=
  u "Google APIの認証に失敗しました: " ++ exn_str e.

(** The address of a conference's space in the Meet API. *)
Definition space_url (conference_id : str) : str :=
  MEET_API_BASE_URL ++ u "/spaces/" ++ conference_id.

(** A string without leading or trailing whitespace. *)
Definition unpadded (py : PyRuntime) (s : str) : Prop :=
  (∀ c, head s = Some c → is_space py c = false) ∧
  (∀ c, last s = Some c → is_space py c = false).

(** Whether the permission check of [handle_reg_prefix] lets the caller
    through; [None] when the directory call fails. *)
Definition permitted (E : Env) (user_id channel_id : str) : option bool :=
  match users_info E user_id with
  | inl _ => None
  | inr user_info =>
      let is_creator :=
        match conversations_info E channel_id with
        | inr conv_info =>
            if ci_ok conv_info
            then bool_decide (ci_creator conv_info = Some user_id) else false
        | inl _ => false
        end in
      Some (ui_is_admin user_info || ui_is_owner user_info || is_creator)
  end.

(** The reply of [handle_reg_prefix] to an exception of the locked
    block. *)
Definition store_error_reply (e : exn) : str :=
  match exn_cls e with
  | PermissionError =>
      u "エラー: 設定ファイルの保存場所 (" ++ STORAGE_DIR ++ u ") へのアクセス権限がありません。"
  | _ => u "プレフィックスの設定/解除中にエラーが発生しました: " ++ exn_str e
  end.


(** The owner's address is known to the directory and its domain is the
    organisation's. *)
Definition owner_accepted (py : PyRuntime) (E : Env) (user_id : str) : Prop :=
  ∃ owner user_domain,
    directory_email E user_id = Some owner ∧
    split_at owner !! 1%nat = Some user_domain ∧
    str_lower py user_domain = str_lower py (GOOGLE_WORKSPACE_DOMAIN E).

(** The replies of a trace. *)
Definition replies (t : list Event) : list Event := filter is_reply t.

(** A handle as the mention pattern captures it: [U] or [W] followed by
    at least one capital letter or digit. *)
Definition handle_shape (id : str) : Prop :=
  ∃ c rest, id = c :: rest ∧ is_UW c = true ∧ rest ≠ [] ∧
            Forall (λ a, is_AZ09 a = true) rest.


(** * Properties *)

Opaque u.

(** ** The regular-expression combinators *)

Section RegexFacts.
Context {A : Type}.
Implicit Types (p : char → bool) (s : str) (x : A).

Lemma re_lit_inv c s (k : str → option A) x :
  re_lit c s k = Some x → ∃ r, s = c :: r ∧ k r = Some x.
Proof.
  destruct s as [|c' r]; simpl; [done|].
  destruct (N.eqb_spec c' c) as [->|]; [eauto | done].
Qed.

Lemma re_class_inv p s (k : char → str → option A) x :
  re_class p s k = Some x → ∃ c r, s = c :: r ∧ p c = true ∧ k c r = Some x.
Proof.
  destruct s as [|c r]; simpl; [done|].
  destruct (p c) eqn:Hp; [eauto | done].
Qed.

Lemma re_star_inv p s (k : str → str → option A) x :
  re_star p s k = Some x →
  ∃ m rest, s = m ++ rest ∧ Forall (λ c, p c = true) m ∧ k m rest = Some x.
Proof.
  revert k. induction s as [|c r IH]; intros k; simpl.
  - intros H. exists [], []. auto.
  - destruct (p c) eqn:Hp.
    + destruct (re_star p r _) as [y|] eqn:Hr.
      * intros [= ->]. apply IH in Hr as (m & rest & -> & Hm & Hk).
        exists (c :: m), rest. auto.
      * intros H. exists [], (c :: r). auto.
    + intros H. exists [], (c :: r). auto.
Qed.

Lemma re_plus_inv p s (k : str → str → option A) x :
  re_plus p s k = Some x →
  ∃ m rest, s = m ++ rest ∧ m ≠ [] ∧ Forall (λ c, p c = true) m ∧ k m rest = Some x.
Proof.
  destruct s as [|c r]; simpl; [done|].
  destruct (p c) eqn:Hp; [|done].
  intros H. apply re_star_inv in H as (m & rest & -> & Hm & Hk).
  exists (c :: m), rest. auto.
Qed.

Lemma re_eol_inv s x y :
  re_eol s x = Some y → y = x ∧ (s = [] ∨ s = [ch_nl]).
Proof.
  destruct s as [|c [|c' r]]; simpl; [naive_solver| |done].
  destruct (N.eqb_spec c ch_nl) as [->|]; naive_solver.
Qed.

(** A greedy repetition that is followed by a character outside the
    class (or by nothing) and whose continuation accepts takes the
    whole run. *)
Lemma re_star_munch p m rest (k : str → str → option A) x :
  Forall (λ c, p c = true) m →
  k m rest = Some x →
  match rest with [] => True | c :: _ => p c = false end →
  re_star p (m ++ rest) k = Some x.
Proof.
  intros Hm. revert k. induction Hm as [|c m Hc Hm IH]; intros k Hk Hrest; simpl.
  - destruct rest as [|c r]; simpl; [done|]. by rewrite Hrest.
  - rewrite Hc. by rewrite (IH (λ m' rest', k (c :: m') rest')).
Qed.

Lemma re_plus_munch p m rest (k : str → str → option A) x :
  m ≠ [] →
  Forall (λ c, p c = true) m →
  k m rest = Some x →
  match rest with [] => True | c :: _ => p c = false end →
  re_plus p (m ++ rest) k = Some x.
Proof.
  intros Hne Hm Hk Hrest. destruct m as [|c m]; [done|].
  apply Forall_cons in Hm as [Hc Hm]. simpl. rewrite Hc.
  by apply (re_star_munch p m rest (λ m' rest', k (c :: m') rest')).
Qed.
End RegexFacts.

Section ParserFacts.
Variable py : PyRuntime.

Lemma int_of_digits_nonneg (s : str) : (0 ≤ int_of_digits py s)%Z.
Proof.
  unfold int_of_digits.
  assert (∀ acc, (0 ≤ acc)%Z →
    (0 ≤ fold_left (λ acc c, 10 * acc + Z.of_N (default 0%N (decimal_value py c))) s acc)%Z)
    as H; [|apply H; lia].
  induction s as [|c s IH]; intros acc Hacc; simpl; [done|].
  apply IH. lia.
Qed.

(** What a match of the quoted pattern says about the subject. *)
Lemma quoted_match_inv text g1 g2 g3 :
  quoted_match py text = Some (g1, g2, g3) →
  ∃ ws ws' tail,
    text = [ch_quote] ++ g1 ++ [ch_quote] ++ ws ++ g2 ++ ws' ++ g3 ++ tail ∧
    g1 ≠ [] ∧ Forall (λ c, not_quote c = true) g1 ∧
    ws ≠ [] ∧ Forall (λ c, is_space py c = true) ws ∧
    g2 ≠ [] ∧ Forall (λ c, is_digit py c = true) g2 ∧
    Forall (λ c, is_space py c = true) ws' ∧
    Forall (λ c, not_newline c = true) g3 ∧
    (tail = [] ∨ tail = [ch_nl]).
Proof.
  unfold quoted_match. intros H.
  apply re_lit_inv in H as (s1 & -> & H).
  apply re_plus_inv in H as (t & s2 & -> & Ht & Htq & H).
  apply re_lit_inv in H as (s3 & -> & H).
  apply re_plus_inv in H as (ws & s4 & -> & Hws & Hwss & H).
  apply re_plus_inv in H as (d & s5 & -> & Hd & Hdd & H).
  apply re_star_inv in H as (ws' & s6 & -> & Hws' & H).
  apply re_star_inv in H as (m & s7 & -> & Hm & H).
  apply re_eol_inv in H as [[= <- <- <-] Htail].
  exists ws, ws', s7. simpl. rewrite <- ?app_assoc. simpl. auto 12.
Qed.

Lemma unquoted_match_inv text g1 g2 g3 :
  unquoted_match py text = Some (g1, g2, g3) →
  ∃ ws ws' tail,
    text = g1 ++ ws ++ g2 ++ ws' ++ g3 ++ tail ∧
    g1 ≠ [] ∧ Forall (λ c, not_space py c = true) g1 ∧
    ws ≠ [] ∧ Forall (λ c, is_space py c = true) ws ∧
    g2 ≠ [] ∧ Forall (λ c, is_digit py c = true) g2 ∧
    Forall (λ c, is_space py c = true) ws' ∧
    Forall (λ c, not_newline c = true) g3 ∧
    (tail = [] ∨ tail = [ch_nl]).
Proof.
  unfold unquoted_match. intros H.
  apply re_plus_inv in H as (t & s2 & -> & Ht & Htq & H).
  apply re_plus_inv in H as (ws & s4 & -> & Hws & Hwss & H).
  apply re_plus_inv in H as (d & s5 & -> & Hd & Hdd & H).
  apply re_star_inv in H as (ws' & s6 & -> & Hws' & H).
  apply re_star_inv in H as (m & s7 & -> & Hm & H).
  apply re_eol_inv in H as [[= <- <- <-] Htail].
  exists ws, ws', s7. rewrite <- ?app_assoc. auto 12.
Qed.




Lemma parse_command_cases text :
  (∃ g, quoted_match py text = Some g ∧ parse_command py text = Parsed (request_of py g)) ∨
  (∃ g, quoted_match py text = None ∧ unquoted_match py text = Some g ∧
        parse_command py text = Parsed (request_of py g)) ∨
  (quoted_match py text = None ∧ unquoted_match py text = None ∧
   parse_command py text = MalformedCommand usage_hint).
Proof.
  unfold parse_command.
  destruct (quoted_match py text) as [g|]; [eauto|].
  destruct (unquoted_match py text) as [g|]; eauto 8.
Qed.
End ParserFacts.

(** ** The handlers, stage by stage *)

Ltac unfold_M :=
  repeat progress unfold mbind, M_bind, M_bind_def, mret, M_ret, M_ret_def, try_except, call,
    attempt, emit, raise, return_, get_files, modify_files, respond in *.

Lemma bind_run {A B} (m : M A) (f : A → M B) fs :
  (m ≫= f) fs =
    match m fs with
    | (Val a, fs1, t1) => let '(r, fs2, t2) := f a fs1 in (r, fs2, t1 ++ t2)
    | (Returned, fs1, t1) => (Returned, fs1, t1)
    | (Raised e, fs1, t1) => (Raised e, fs1, t1)
    end.
Proof. reflexivity. Qed.

Lemma ret_run {A} (a : A) fs : mret (M := M) a fs = (Val a, fs, []).
Proof. reflexivity. Qed.

Ltac run_simpl := repeat first [rewrite bind_run | rewrite ret_run | progress simpl].

Section HandlerFacts.
Variable py : PyRuntime.
Variable E : Env.

Lemma get_user_email_run user_id fs :
  get_user_email E user_id fs
    = (Val (directory_email E user_id), fs, [EvUsersInfo user_id]).
Proof.
  unfold get_user_email, directory_email, client_users_info. unfold_M.
  destruct (users_info E user_id) as [e|ui]; simpl; [done|].
  by destruct (ui_ok ui && truthy_opt (ui_email ui)).
Qed.

Lemma load_prefix_run channel_id fs :
  load_prefix py E channel_id fs =
    let path := prefix_filepath channel_id in
    let lock := prefix_lockpath channel_id in
    match lock_acquire E lock with
    | Some e => (Raised e, fs, [EvLockAcquire lock])
    | None =>
        match fs !! path with
        | None => (Val [], fs, [EvLockAcquire lock; EvExists path; EvLockRelease lock])
        | Some content =>
            match open_read_error E path with
            | Some e =>
                (Returned, fs,
                 [EvLockAcquire lock; EvExists path; EvOpenRead path;
                  EvRespond (u "プレフィックスの取得中にエラーが発生しました: " ++ exn_str e) None;
                  EvLockRelease lock])
            | None =>
                (Val (strip py content), fs,
                 [EvLockAcquire lock; EvExists path; EvOpenRead path; EvLockRelease lock])
            end
        end
    end.
Proof.
  unfold load_prefix, with_FileLock, os_path_exists, open_read, prefix_lockpath. unfold_M.
  simpl.
  destruct (lock_acquire E _) as [e|]; simpl; [done|].
  destruct (fs !! prefix_filepath channel_id) as [content|] eqn:Hc; simpl.
  - 
    destruct (open_read_error E _) as [e|]; simpl.
    + by destruct (exn_cls e).
    + rewrite Hc. simpl. by destruct (strip py content).
  - done.
Qed.

Lemma parse_stage_run text fs :
  parse_stage py text fs =
    match parse_command py text with
    | Parsed r => (Val r, fs, [])
    | MalformedCommand hint => (Returned, fs, [EvRespond hint None])
    end.
Proof. unfold parse_stage. by destruct (parse_command py text). Qed.


Lemma directory_email_truthy user_id :
  truthy_opt (directory_email E user_id)
    = match directory_email E user_id with Some _ => true | None => false end.
Proof.
  unfold directory_email. destruct (users_info E user_id) as [|ui]; [done|].
  destruct (ui_ok ui); simpl; [|done].
  destruct (truthy_opt (ui_email ui)) eqn:H; [|done].
  rewrite H. by destruct (ui_email ui).
Qed.

Lemma resolve_guests_run user_id mention_ids attendee_emails failed fs :
  resolve_guests E user_id mention_ids attendee_emails failed fs =
    (Val (guest_lists E user_id mention_ids attendee_emails failed), fs,
     EvUsersInfo <$> filter (λ mid, mid ≠ user_id) mention_ids).
Proof.
  revert attendee_emails failed.
  induction mention_ids as [|m rest IH]; intros att failed; [done|].
  simpl. rewrite filter_cons. case_bool_decide as Hm.
  - rewrite decide_False by naive_solver. apply IH.
  - rewrite decide_True by done. rewrite bind_run, get_user_email_run.
    rewrite directory_email_truthy.
    destruct (directory_email E m) as [email|]; simpl.
    + case_bool_decide; by rewrite IH.
    + by rewrite IH.
Qed.

Lemma resolve_identities_run user_id mtext fs :
  resolve_identities py E user_id mtext fs =
    match directory_email E user_id with
    | None =>
        (Returned, fs,
         [EvUsersInfo user_id;
          EvRespond (mention user_id
                     ++ u " のメールアドレスをSlackプロファイルから取得できませんでした。") None])
    | Some owner =>
        match split_at owner !! 1%nat with
        | None =>
            (Returned, fs,
             [EvUsersInfo user_id;
              EvRespond (u "メールアドレスの形式が正しくありません。") None])
        | Some user_domain =>
            if bool_decide (str_lower py user_domain
                            ≠ str_lower py (GOOGLE_WORKSPACE_DOMAIN E))
            then
              (Returned, fs,
               [EvUsersInfo user_id;
                EvRespond (u "このコマンドは " ++ GOOGLE_WORKSPACE_DOMAIN E
                           ++ u " ドメインのユーザーのみ利用できます。") None])
            else
              let ids := findall_mentions mtext in
              let lists := guest_lists E user_id ids [] [] in
              (Val {| owner_email := owner; attendee_emails := lists.1;
                      mention_ids := ids; failed_guest_lookups := lists.2 |}, fs,
               EvUsersInfo user_id
                 :: (EvUsersInfo <$> filter (λ mid, mid ≠ user_id) ids))
        end
    end.
Proof.
  unfold resolve_identities. unfold try_except at 1.
  rewrite bind_run, get_user_email_run, directory_email_truthy.
  destruct (directory_email E user_id) as [owner|]; simpl; [|done].
  destruct (split_at owner !! 1%nat) as [dom|]; simpl; [|done].
  case_bool_decide; simpl; [done|].
  run_simpl. rewrite resolve_guests_run. simpl.
  destruct (guest_lists _ _ _ _). run_simpl. by rewrite app_nil_r.
Qed.

Lemma compute_end_time_run start duration fs :
  compute_end_time start duration fs =
    match end_time start duration with
    | inl e => (Raised e, fs, [])
    | inr t => (Val t, fs, [])
    end.
Proof. unfold compute_end_time. by destruct (end_time start duration). Qed.


Lemma authenticate_run owner fs :
  authenticate E owner fs =
    match credentials_error E owner with
    | Some e =>
        (Returned, fs, [EvCredentials owner; EvRespond (auth_error_message e) None])
    | None =>
        match calendar_service_error E with
        | Some e =>
            (Returned, fs,
             [EvCredentials owner; EvCalendarService;
              EvRespond (auth_error_message e) None])
        | None => (Val (), fs, [EvCredentials owner; EvCalendarService])
        end
    end.
Proof.
  unfold authenticate. unfold_M.
  destruct (credentials_error E owner); simpl; [done|].
  by destruct (calendar_service_error E).
Qed.

Lemma create_event_run body fs :
  create_event E body fs =
    match events_insert E body with
    | inl e =>
        (Returned, fs,
         [EvEventsInsert body; EvRespond (creation_error_message e) None])
    | inr created => (Val created, fs, [EvEventsInsert body])
    end.
Proof.
  unfold create_event. unfold_M. by destruct (events_insert E body).
Qed.


Lemma get_meet_space_id_run cid fs :
  truthy cid = true →
  ∃ r, get_meet_space_id E (Some cid) fs = (Val r, fs, [EvHttpGet (space_url cid)]).
Proof.
  intros Hc. unfold get_meet_space_id, space_url. simpl. rewrite Hc. simpl. unfold_M.
  destruct (requests_get E _) as [e|resp]; simpl.
  - destruct (exn_cls e); eauto.
  - destruct (status_code resp =? 200)%Z; simpl.
    + destruct (json_name resp) as [e|n]; simpl.
      * destruct (exn_cls e); eauto.
      * destruct (truthy_opt n); eauto.
    + destruct (status_code resp =? 404)%Z; eauto.
Qed.


Lemma enable_meet_auto_artifact_run sid fs :
  truthy sid = true →
  ∃ r, enable_meet_auto_artifact E (Some sid) fs
       = (Val r, fs, [EvHttpPatch (MEET_API_BASE_URL ++ u "/" ++ sid) updateMask_artifacts]).
Proof.
  intros Hs. unfold enable_meet_auto_artifact. simpl. rewrite Hs. simpl. unfold_M.
  destruct (requests_patch E _) as [e|resp]; simpl.
  - destruct (exn_cls e); eauto.
  - destruct (_ && _); simpl; [eauto|].
    destruct (status_code resp =? 403)%Z; eauto.
Qed.

(** The Meet block always ends normally, leaves the files alone and
    makes at most one lookup followed by at most one update. *)
Lemma configure_artifacts_run conference_id fs :
  ∃ msg t,
    configure_artifacts E conference_id fs = (Val msg, fs, t) ∧
    (t = [] ∨
     (∃ cid, conference_id = Some cid ∧
        (t = [EvHttpGet (space_url cid)] ∨
         ∃ url, t = [EvHttpGet (space_url cid); EvHttpPatch url updateMask_artifacts]))).
Proof.
  unfold configure_artifacts.
  destruct conference_id as [cid|]; simpl; [|eauto].
  destruct (truthy cid) eqn:Hc; [|eauto].
  unfold try_except. rewrite bind_run.
  destruct (get_meet_space_id_run cid fs Hc) as [[space_id err] ->]. simpl.
  destruct space_id as [sid|]; simpl; [|eauto 10].
  destruct (truthy sid) eqn:Hs; [|eauto 10].
  rewrite bind_run.
  destruct (enable_meet_auto_artifact_run sid fs Hs) as [[ok msg] ->]. simpl.
  destruct ok; simpl; eauto 10.
Qed.


(** The pipeline of [handle_mtg_command], stage by stage: where it
    stops, and the trace up to there. *)
Lemma handle_mtg_command_run command fs :
  handle_mtg_command py E command fs =
    let user_id := cmd_user_id command in
    match load_prefix py E (cmd_channel_id command) fs with
    | (Raised e, fs1, t1) => (Raised e, fs1, EvAck :: t1)
    | (Returned, fs1, t1) => (Returned, fs1, EvAck :: t1)
    | (Val prefix, fs1, t1) =>
    match parse_command py (strip py (cmd_text command)) with
    | MalformedCommand hint => (Returned, fs1, EvAck :: t1 ++ [EvRespond hint None])
    | Parsed request =>
    match resolve_identities py E user_id (mentions_text request) fs1 with
    | (Raised e, fs2, t2) => (Raised e, fs2, EvAck :: t1 ++ t2)
    | (Returned, fs2, t2) => (Returned, fs2, EvAck :: t1 ++ t2)
    | (Val ids, fs2, t2) =>
    match end_time (now E) (duration_minutes request) with
    | inl e => (Raised e, fs2, EvAck :: t1 ++ t2)
    | inr end_time_utc =>
    match authenticate E (owner_email ids) fs2 with
    | (Raised e, fs3, t3) => (Raised e, fs3, EvAck :: t1 ++ t2 ++ t3)
    | (Returned, fs3, t3) => (Returned, fs3, EvAck :: t1 ++ t2 ++ t3)
    | (Val _, fs3, t3) =>
    let title := prefix ++ meeting_title request in
    let body := event_body_of py user_id title (now E) end_time_utc
                  (attendee_emails ids) in
    match create_event E body fs3 with
    | (Raised e, fs4, t4) => (Raised e, fs4, EvAck :: t1 ++ t2 ++ t3 ++ t4)
    | (Returned, fs4, t4) => (Returned, fs4, EvAck :: t1 ++ t2 ++ t3 ++ t4)
    | (Val created, fs4, t4) =>
    match configure_artifacts E (conferenceId created) fs4 with
    | (Raised e, fs5, t5) => (Raised e, fs5, EvAck :: t1 ++ t2 ++ t3 ++ t4 ++ t5)
    | (Returned, fs5, t5) => (Returned, fs5, EvAck :: t1 ++ t2 ++ t3 ++ t4 ++ t5)
    | (Val recording_error_msg, fs5, t5) =>
        (Val (), fs5,
         EvAck :: t1 ++ t2 ++ t3 ++ t4 ++ t5 ++
           [EvRespond
              (success_message title (time_str py (now E) end_time_utc) user_id
                 (guest_list_str user_id (mention_ids ids))
                 (hangoutLink created) (htmlLink created) recording_error_msg
                 (failed_guest_lookups ids))
              in_channel])
    end end end end end end end.
Proof.
  unfold handle_mtg_command. rewrite bind_run. unfold ack, emit. simpl.
  rewrite bind_run.
  destruct (load_prefix _ _ _ _) as [[[prefix| |e] fs1] t1]; [|done..].
  rewrite bind_run, parse_stage_run.
  destruct (parse_command _ _) as [request|hint]; [|done].
  rewrite bind_run.
  destruct (resolve_identities _ _ _ _ _) as [[[ids| |e] fs2] t2]; [|done..].
  rewrite bind_run, compute_end_time_run.
  destruct (end_time _ _) as [e|end_time_utc]; simpl; [by rewrite app_nil_r|].
  rewrite bind_run.
  destruct (authenticate _ _ _) as [[[[]| |e] fs3] t3]; [|done..].
  rewrite bind_run.
  destruct (create_event _ _ _) as [[[created| |e] fs4] t4]; [|done..].
  rewrite bind_run.
  by destruct (configure_artifacts _ _ _) as [[[msg| |e] fs5] t5].
Qed.
End HandlerFacts.

(** ** The command parser *)

(** C3, as amended: every request the parser produces has a non-empty
    title and a duration that is a non-negative integer (zero included);
    this holds for every command text either pattern accepts. *)
Theorem parsed_request_invariant (py : PyRuntime) (text : str) (r : MeetingRequest) :
  parse_command py text = Parsed r →
  (0 ≤ duration_minutes r)%Z ∧ meeting_title r ≠ [].
Proof.
  intros H.
  destruct (parse_command_cases py text)
    as [(g & Hq & Hp) | [(g & _ & Hu & Hp) | (_ & _ & Hp)]];
    rewrite Hp in H; [| |done]; injection H as <-; destruct g as [[g1 g2] g3]; simpl.
  - split; [apply int_of_digits_nonneg|].
    by apply quoted_match_inv in Hq as (? & ? & ? & _ & ? & _).
  - split; [apply int_of_digits_nonneg|].
    by apply unquoted_match_inv in Hu as (? & ? & ? & _ & ? & _).
Qed.

Lemma parsed_request_invariant_witness :
  parse_command py_ascii (u "standup 15 <@U123>")
    = Parsed {| meeting_title := u "standup"; duration_minutes := 15;
                mentions_text := u "<@U123>" |}
  ∧ (0 ≤ 15)%Z ∧ u "standup" ≠ [].
Proof.
  split; [reflexivity|].
  exact (parsed_request_invariant py_ascii (u "standup 15 <@U123>") _ eq_refl).
Defined.

(** C3, as stated, fails: the text [x 0] is accepted by the unquoted
    pattern and yields a request whose duration is 0, not a positive
    integer. *)
Lemma zero_duration_accepted :
  parse_command py_ascii (u "x 0")
    = Parsed {| meeting_title := u "x"; duration_minutes := 0; mentions_text := [] |}
  ∧ ¬ (0 < 0)%Z.
Proof. split; [reflexivity | lia]. Qed.

(** C9: when the token after the title is a digit run directly followed
    by other characters, the unquoted pattern still matches: the duration
    is the leading digit run and the characters behind it start the
    mention remainder ([title 5x @guest] gives 5 and [x @guest]). *)
Theorem duration_need_not_span_token (py : PyRuntime) (word digits : str) (c : char)
    (tail : str) :
  word ≠ [] →
  head word ≠ Some ch_quote →
  Forall (λ a, is_space py a = false) word →
  digits ≠ [] →
  Forall (λ d, is_digit py d = true ∧ is_space py d = false) digits →
  is_digit py c = false → is_space py c = false →
  Forall (λ a, a ≠ ch_nl) (c :: tail) →
  parse_command py (word ++ u " " ++ digits ++ c :: tail)
    = Parsed {| meeting_title := word; duration_minutes := int_of_digits py digits;
                mentions_text := c :: tail |}.
Proof.
  intros Hword Hq Hsp Hdig Hd Hc Hcs Htail.
  unfold parse_command.
  assert (quoted_match py (word ++ u " " ++ digits ++ c :: tail) = None) as ->.
  { destruct word as [|w word]; [done|]. unfold quoted_match. simpl.
    destruct (N.eqb_spec w ch_quote) as [->|]; [by destruct Hq | done]. }
  destruct digits as [|d digits]; [done|].
  pose proof Hd as Hd0. apply Forall_cons in Hd0 as [[_ Hd0] _].
  assert (unquoted_match py (word ++ u " " ++ (d :: digits) ++ c :: tail)
          = Some (word, d :: digits, c :: tail)) as ->; [|done].
  unfold unquoted_match.
  apply re_plus_munch; [done| |..].
  - eapply Forall_impl; [exact Hsp|]. intros a Ha. unfold not_space. by rewrite Ha.
  - change (u " " ++ (d :: digits) ++ c :: tail)
      with ([32] ++ ((d :: digits) ++ c :: tail)).
    apply re_plus_munch; [done | by repeat constructor | | simpl; exact Hd0].
    apply re_plus_munch; [done | | | exact Hc].
    + eapply Forall_impl; [exact Hd|]. by intros a [? _].
    + apply (re_star_munch _ [] (c :: tail)); [done | | exact Hcs].
      rewrite <- (app_nil_r (c :: tail)) at 1.
      apply re_star_munch; [|done..].
      eapply Forall_impl; [exact Htail|]. intros a Ha. unfold not_newline.
      by destruct (N.eqb_spec a ch_nl).
  - simpl. by vm_compute.
Qed.

Lemma duration_need_not_span_token_witness :
  parse_command py_ascii (u "title 5x @guest")
    = Parsed {| meeting_title := u "title"; duration_minutes := 5;
                mentions_text := u "x @guest" |}.
Proof.
  apply (duration_need_not_span_token py_ascii (u "title") (u "5") 120 (u " @guest"));
    vm_compute; try done; repeat constructor; done.
Defined.

(** ** [str.strip] *)

Section StripFacts.
Variable py : PyRuntime.

Lemma lstrip_spec (s : str) :
  ∃ ws, s = ws ++ lstrip py s ∧ Forall (λ c, is_space py c = true) ws ∧
        ∀ c, head (lstrip py s) = Some c → is_space py c = false.
Proof.
  induction s as [|c s (ws & Hs & Hws & Hhd)]; simpl.
  - exists []. by repeat split.
  - destruct (is_space py c) eqn:Hc.
    + exists (c :: ws). rewrite <- app_comm_cons, <- Hs. repeat split; auto.
    + exists []. repeat split; auto. simpl. by intros ? [= <-].
Qed.

Lemma rstrip_spec (s : str) :
  ∃ ws, s = rstrip py s ++ ws ∧ Forall (λ c, is_space py c = true) ws ∧
        ∀ c, last (rstrip py s) = Some c → is_space py c = false.
Proof.
  unfold rstrip. destruct (lstrip_spec (rev s)) as (ws & Hs & Hws & Hhd).
  exists (rev ws). repeat split.
  - rewrite <- rev_app_distr, <- Hs. by rewrite rev_involutive.
  - by apply Forall_rev.
  - intros c [l' Hl]%last_Some. apply Hhd.
    rewrite <- (rev_involutive (lstrip py (rev s))), Hl, rev_app_distr. done.
Qed.

Lemma strip_unpadded (s : str) : unpadded py (strip py s).
Proof.
  unfold strip.
  destruct (lstrip_spec s) as (_ & _ & _ & Hhd).
  destruct (rstrip_spec (lstrip py s)) as (ws & Hs & _ & Hlast).
  split; [|exact Hlast].
  intros c Hc. apply Hhd. rewrite Hs.
  destruct (rstrip py (lstrip py s)); by simplify_eq/=.
Qed.

Lemma lstrip_all_space (s : str) :
  Forall (λ c, is_space py c = true) s → lstrip py s = [].
Proof. induction 1 as [|c s Hc _ IH]; simpl; [done|]. by rewrite Hc. Qed.

Lemma strip_all_space (s : str) :
  Forall (λ c, is_space py c = true) s → strip py s = [].
Proof. intros H. unfold strip, rstrip. by rewrite (lstrip_all_space s H). Qed.
End StripFacts.

(** ** The prefix store *)

Section StoreFacts.
Variable py : PyRuntime.
Variable E : Env.

Lemma set_prefix_run channel_id prefix_text fs :
  set_prefix E channel_id prefix_text fs =
    let path := prefix_filepath channel_id in
    let lock := prefix_lockpath channel_id in
    match lock_acquire E lock with
    | Some e => (Raised e, fs, [EvLockAcquire lock])
    | None =>
        if truthy prefix_text then
          match open_write_error E path with
          | Some e =>
              (Raised e, fs,
               [EvLockAcquire lock; EvOpenWrite path prefix_text; EvLockRelease lock])
          | None =>
              (Val (), <[path := prefix_text]> fs,
               [EvLockAcquire lock; EvOpenWrite path prefix_text; EvLockRelease lock])
          end
        else
          match fs !! path with
          | None => (Val (), fs, [EvLockAcquire lock; EvExists path; EvLockRelease lock])
          | Some _ =>
              match os_remove_error E path with
              | Some e =>
                  (Raised e, fs,
                   [EvLockAcquire lock; EvExists path; EvRemove path; EvLockRelease lock])
              | None =>
                  (Val (), delete path fs,
                   [EvLockAcquire lock; EvExists path; EvRemove path; EvLockRelease lock])
              end
          end
    end.
Proof.
  unfold set_prefix, with_FileLock, os_path_exists, os_remove, open_write, prefix_lockpath.
  unfold_M. simpl.
  destruct (lock_acquire E _) as [e|]; simpl; [done|].
  destruct (truthy prefix_text); simpl.
  - by destruct (open_write_error E _).
  - destruct (fs !! prefix_filepath channel_id) as [content|] eqn:Hc; simpl; [|done].
    destruct (os_remove_error E _); simpl; [done|]. by rewrite Hc.
Qed.

Lemma check_permission_run user_id channel_id fs :
  check_permission E user_id channel_id fs =
    match permitted E user_id channel_id with
    | None =>
        (Returned, fs,
         [EvUsersInfo user_id;
          EvRespond (u "ユーザー権限の確認中にエラーが発生しました。") None])
    | Some false =>
        (Returned, fs,
         [EvUsersInfo user_id; EvConversationsInfo channel_id;
          EvRespond (u "このコマンドを実行する権限がありません。Slackの管理者/オーナー、またはこのチャンネルの作成者のみが実行できます。") None])
    | Some true =>
        (Val (), fs, [EvUsersInfo user_id; EvConversationsInfo channel_id])
    end.
Proof.
  unfold check_permission, permitted, client_users_info, client_conversations_info.
  unfold_M. simpl.
  destruct (users_info E user_id) as [e|ui]; simpl; [done|].
  destruct (conversations_info E channel_id) as [e|ci]; simpl.
  - by destruct (ui_is_admin ui || ui_is_owner ui || false).
  - destruct (ci_ok ci); simpl.
    + by destruct (ui_is_admin ui || ui_is_owner ui || _).
    + by destruct (ui_is_admin ui || ui_is_owner ui || false).
Qed.

Lemma handle_reg_prefix_run command fs :
  handle_reg_prefix py E command fs =
    let channel_id := cmd_channel_id command in
    let prefix_text := strip py (cmd_text command) in
    match check_permission E (cmd_user_id command) channel_id fs with
    | (Raised e, fs1, t1) => (Raised e, fs1, EvAck :: t1)
    | (Returned, fs1, t1) => (Returned, fs1, EvAck :: t1)
    | (Val _, fs1, t1) =>
        match set_prefix E channel_id prefix_text fs1 with
        | (Raised e, fs2, t2) =>
            (Val (), fs2, EvAck :: t1 ++ t2 ++ [EvRespond (store_error_reply e) None])
        | (Returned, fs2, t2) => (Returned, fs2, EvAck :: t1 ++ t2)
        | (Val _, fs2, t2) =>
            (Val (), fs2,
             EvAck :: t1 ++ t2 ++
               [EvRespond
                  (if truthy prefix_text
                   then u "<#" ++ channel_id ++ u "> の会議名プレフィックスを `"
                        ++ prefix_text ++ u "` に設定しました。"
                   else u "<#" ++ channel_id ++ u "> の会議名プレフィックスを解除しました。")
                  in_channel])
        end
    end.
Proof.
  unfold handle_reg_prefix. rewrite bind_run. unfold ack, emit. simpl.
  rewrite bind_run.
  destruct (check_permission _ _ _ _) as [[[[]| |e] fs1] t1]; [|done..].
  unfold try_except. rewrite bind_run.
  destruct (set_prefix _ _ _ _) as [[[[]| |e] fs2] t2]; simpl; [|done|].
  - by destruct (truthy (strip py (cmd_text command))).
  - unfold store_error_reply, respond, emit. by destruct (exn_cls e).
Qed.
End StoreFacts.

(** C1, where the code departs from the claim: in [handle_mtg_command]
    the [with FileLock] statement stands outside every [try], so when the
    lock is not acquired within its bound the exception leaves the
    handler: the run ends with that exception and no reply is sent. *)
Theorem mtg_lock_timeout_unhandled (py : PyRuntime) (E : Env) (command : Command)
    (fs : Files) (e : exn) :
  lock_acquire E (prefix_lockpath (cmd_channel_id command)) = Some e →
  handle_mtg_command py E command fs
    = (Raised e, fs, [EvAck; EvLockAcquire (prefix_lockpath (cmd_channel_id command))]).
Proof.
  intros Hlock. rewrite handle_mtg_command_run, load_prefix_run. simpl.
  by rewrite Hlock.
Qed.

Lemma mtg_lock_timeout_unhandled_witness :
  handle_mtg_command py_ascii
      (demo_env_with (Some lock_timeout) (inr demo_event) (response 404 None))
      demo_command demo_files
    = (Raised lock_timeout, demo_files,
       [EvAck; EvLockAcquire (u "/etc/GoogleMeetEventCreater/C42.txt.lock")]).
Proof.
  exact (mtg_lock_timeout_unhandled py_ascii
           (demo_env_with (Some lock_timeout) (inr demo_event) (response 404 None))
           demo_command demo_files lock_timeout eq_refl).
Defined.

(** The sibling path: [handle_reg_prefix] wraps the same statement in a
    [try], and a caller who is let through gets the error as a private
    reply. *)
Lemma reg_prefix_lock_timeout_reported (py : PyRuntime) (E : Env) (command : Command)
    (fs : Files) (e : exn) :
  permitted E (cmd_user_id command) (cmd_channel_id command) = Some true →
  lock_acquire E (prefix_lockpath (cmd_channel_id command)) = Some e →
  handle_reg_prefix py E command fs
    = (Val (), fs,
       [EvAck; EvUsersInfo (cmd_user_id command);
        EvConversationsInfo (cmd_channel_id command);
        EvLockAcquire (prefix_lockpath (cmd_channel_id command));
        EvRespond (store_error_reply e) None]).
Proof.
  intros Hperm Hlock.
  rewrite handle_reg_prefix_run. cbv zeta. rewrite check_permission_run, Hperm.
  rewrite set_prefix_run. simpl. by rewrite Hlock.
Qed.

(** An event occurs in a trace that is written out. *)
Ltac find_event :=
  repeat first [apply list_elem_of_here | apply list_elem_of_further].

(** Membership of an event in an explicit trace, case by case. *)
Ltac trace_in H :=
  repeat first
    [ apply elem_of_nil in H; destruct H
    | apply elem_of_cons in H as [H|H]; [try discriminate H|]
    | apply elem_of_app in H as [H|H]
    | apply list_elem_of_fmap in H as (? & H & _); try discriminate H ].

(** Every way [handle_mtg_command] can run, one goal for each. *)
Ltac mtg_cases py E command fs :=
  rewrite (handle_mtg_command_run py E command fs), load_prefix_run; cbv zeta;
  destruct (lock_acquire E (prefix_lockpath (cmd_channel_id command))) as [?e|] eqn:?Hlock;
  [|destruct (fs !! prefix_filepath (cmd_channel_id command)) as [?content|] eqn:?Hfile;
    [destruct (open_read_error E (prefix_filepath (cmd_channel_id command)))
       as [?e|] eqn:?Hread|]];
  try (destruct (parse_command py (strip py (cmd_text command)))
         as [?request|?hint] eqn:?Hparse;
       [rewrite resolve_identities_run;
        destruct (directory_email E (cmd_user_id command)) as [?owner|] eqn:?Howner;
        [lazymatch goal with
         | |- context [split_at ?o !! 1%nat] =>
             destruct (split_at o !! 1%nat) as [?domain|] eqn:?Hsplit
         end;
         [case_bool_decide;
          [|cbv zeta;
            lazymatch goal with
            | |- context [end_time ?a ?b] =>
                destruct (end_time a b) as [?e|?end_time_utc] eqn:?Hend
            end;
            [|rewrite authenticate_run;
              lazymatch goal with
              | |- context [credentials_error E ?a] =>
                  destruct (credentials_error E a) as [?e|] eqn:?Hcred
              end;
              [|destruct (calendar_service_error E) as [?e|] eqn:?Hservice;
                [|cbv zeta; rewrite create_event_run;
                  lazymatch goal with
                  | |- context [match events_insert E ?b with inl _ => _ | inr _ => _ end] =>
                      destruct (events_insert E b) as [?e|?created] eqn:?Hinsert
                  end;
                  [|let msg := fresh "msg" in
                    let t := fresh "t" in
                    let Hrun := fresh "Hrun" in
                    let Ht := fresh "Ht" in
                    lazymatch goal with
                    | |- context [configure_artifacts E ?c ?f] =>
                        destruct (configure_artifacts_run E c f) as (msg & t & Hrun & Ht);
                        rewrite Hrun
                    end]]]]]|]|]|]).

Section PipelineFacts.
Variable py : PyRuntime.
Variable E : Env.




End PipelineFacts.



(** C10: the prefix the lookup returns is the stored content stripped of
    leading and trailing whitespace, a whitespace-only record counts as
    no prefix, and the title sent to the calendar is that prefix followed
    by the parsed title. *)
Theorem loaded_prefix_is_stripped (py : PyRuntime) (E : Env) (command : Command)
    (fs : Files) (prefix : str) :
  outcome (load_prefix py E (cmd_channel_id command) fs) = Val prefix →
  let stored := default [] (fs !! prefix_filepath (cmd_channel_id command)) in
  prefix = strip py stored ∧
  unpadded py prefix ∧
  (Forall (λ c, is_space py c = true) stored → prefix = []) ∧
  ∀ body, EvEventsInsert body ∈ trace (handle_mtg_command py E command fs) →
    ∃ request,
      parse_command py (strip py (cmd_text command)) = Parsed request ∧
      summary body = prefix ++ meeting_title request.
Proof.
  intros Hload stored.
  assert (prefix = strip py stored) as ->.
  { revert Hload. rewrite load_prefix_run. cbv zeta. subst stored.
    destruct (lock_acquire E _); [done|].
    destruct (fs !! _); simpl; [|by intros [= <-]].
    destruct (open_read_error E _); [done|]. by intros [= <-]. }
  split; [done|]. split; [apply strip_unpadded|]. split; [apply strip_all_space|].
  intros body. revert Hload. subst stored.
  mtg_cases py E command fs; unfold trace, outcome; simpl; intros Hload Hin;
    try (destruct Ht as [->|(cid & _ & [->|[url ->]])]);
    trace_in Hin; injection Hin as ->; eauto.
Qed.

Lemma loaded_prefix_is_stripped_witness :
  outcome (load_prefix py_ascii demo_env (u "C42") demo_files) = Val (u "[dev]")
  ∧ u "[dev]" = strip py_ascii (u "  [dev] ")
  ∧ unpadded py_ascii (u "[dev]").
Proof.
  split; [reflexivity|].
  destruct (loaded_prefix_is_stripped py_ascii demo_env demo_command demo_files
              (u "[dev]") eq_refl) as (H1 & H2 & _).
  split; [exact H1 | exact H2].
Defined.




(** The other example of the specification, an unterminated quote. *)
Example unterminated_quote_rejected :
  parse_command py_ascii (ch_quote :: u "unterminated quote 5") = MalformedCommand usage_hint.
Proof. reflexivity. Qed.

(** ** Event creation and the artifacts *)

(** Every event of an explicit trace lies before the creation of the
    calendar event. *)
Ltac before_creation :=
  repeat first
    [ apply Forall_nil_2
    | apply Forall_cons_2; [simpl; lia|]
    | apply Forall_app_2
    | apply Forall_fmap, Forall_true; intros ?; simpl; lia ].

(** A failed creation is fatal: when the call that creates the event
    fails, the handler stops there: the trace ends with that call and one
    private reply (no [response_type]) whose text is what lines 424-434
    build from the exception, and no call to the Meet API is made before
    or after. *)
Theorem creation_failure_is_fatal (py : PyRuntime) (E : Env) (command : Command)
    (fs : Files) (body : EventBody) (e : exn) :
  EvEventsInsert body ∈ trace (handle_mtg_command py E command fs) →
  events_insert E body = inl e →
  ∃ before,
    handle_mtg_command py E command fs
      = (Returned, fs,
         before ++ [EvEventsInsert body; EvRespond (creation_error_message e) None]) ∧
    Forall (λ ev, (stage ev < 4)%nat) before ∧
    creation_error_message e =
      match exn_cls e with
      | HttpError resp _ =>
          u "Googleカレンダーへの予定作成中にエラーが発生しました: "
            ++ default (u "{}") (resp !! u "content")
      | _ => u "予期せぬエラーが発生しました(カレンダーイベント作成時): " ++ exn_str e
      end.
Proof.
  mtg_cases py E command fs; unfold trace; simpl; intros Hin Hfail;
    try (destruct Ht as [->|(cid & _ & [->|[url ->]])]);
    trace_in Hin; injection Hin as ->; simpl in Hinsert; rewrite Hfail in Hinsert;
    simplify_eq.
  all: match goal with
       | |- context [[?a; ?b; EvEventsInsert ?x; ?r]] =>
           change [a; b; EvEventsInsert x; r] with ([a; b] ++ [EvEventsInsert x; r])
       end;
       rewrite app_assoc, !app_comm_cons;
       eexists; split; [reflexivity|]; split; [before_creation | reflexivity].
Qed.

Lemma creation_failure_is_fatal_witness :
  ∃ before,
    handle_mtg_command py_ascii
        (demo_env_with None (inl connection_reset) (response 404 None))
        demo_command demo_files
      = (Returned, demo_files,
         before ++
           [EvEventsInsert
              (event_body_of py_ascii (u "U001") (u "[dev]Weekly Sync") 1700000000000000
                 1700001800000000 [u "bob@org.com"]);
            EvRespond
              (u "予期せぬエラーが発生しました(カレンダーイベント作成時): "
                 ++ u "Connection reset by peer") None]).
Proof.
  destruct (creation_failure_is_fatal py_ascii
              (demo_env_with None (inl connection_reset) (response 404 None))
              demo_command demo_files
              (event_body_of py_ascii (u "U001") (u "[dev]Weekly Sync") 1700000000000000
                 1700001800000000 [u "bob@org.com"])
              connection_reset) as (before & Hrun & _).
  - vm_compute. find_event.
  - reflexivity.
  - exists before. exact Hrun.
Defined.

(** The same run when the calendar answers with an [HttpError] whose
    response mapping has an entry named [content]. *)
Example creation_failure_http_error :
  outcome (handle_mtg_command py_ascii
             (demo_env_with None (inl forbidden) (response 404 None))
             demo_command demo_files) = Returned
  ∧ last (trace (handle_mtg_command py_ascii
                   (demo_env_with None (inl forbidden) (response 404 None))
                   demo_command demo_files))
    = Some (EvRespond
              (u "Googleカレンダーへの予定作成中にエラーが発生しました: "
                 ++ u "{ error: forbidden }") None).
Proof. split; reflexivity. Qed.

(** C4: the reply after a failed creation does not carry the detail of
    an [HttpError].  Line 426 reads the entry named [content] of the
    error's response mapping ([error.resp.get]), not the body of the
    error: when the mapping has no such entry, then whatever the body and
    the text of the error are, the run stops after the insertion with
    the private reply made of the fixed message and the default [{}].
    No call to the Meet API is made. *)
Theorem creation_error_detail_is_dropped (py : PyRuntime) (E : Env) (command : Command)
    (fs : Files) (body : EventBody) (resp : gmap str str) (content message : str) :
  EvEventsInsert body ∈ trace (handle_mtg_command py E command fs) →
  events_insert E body
    = inl {| exn_cls := HttpError resp content; exn_str := message |} →
  resp !! u "content" = None →
  ∃ before,
    handle_mtg_command py E command fs
      = (Returned, fs,
         before ++
           [EvEventsInsert body;
            EvRespond
              (u "Googleカレンダーへの予定作成中にエラーが発生しました: " ++ u "{}") None]) ∧
    Forall (λ ev, (stage ev < 4)%nat) before.
Proof.
  intros Hin Hfail Hresp.
  destruct (creation_failure_is_fatal py E command fs body _ Hin Hfail)
    as (before & Hrun & Hstage & Hmessage).
  exists before. split; [|exact Hstage].
  rewrite Hrun, Hmessage. simpl. by rewrite Hresp.
Qed.

Lemma creation_error_detail_is_dropped_witness :
  ∃ before,
    handle_mtg_command py_ascii
        (demo_env_with None (inl rate_limited) (response 404 None))
        demo_command demo_files
      = (Returned, demo_files,
         before ++
           [EvEventsInsert
              (event_body_of py_ascii (u "U001") (u "[dev]Weekly Sync") 1700000000000000
                 1700001800000000 [u "bob@org.com"]);
            EvRespond
              (u "Googleカレンダーへの予定作成中にエラーが発生しました: " ++ u "{}") None]).
Proof.
  destruct (creation_error_detail_is_dropped py_ascii
              (demo_env_with None (inl rate_limited) (response 404 None))
              demo_command demo_files
              (event_body_of py_ascii (u "U001") (u "[dev]Weekly Sync") 1700000000000000
                 1700001800000000 [u "bob@org.com"])
              {[ u "status" := u "403"; u "content-type" := u "application/json" ]}
              (u "{ error: rateLimitExceeded }")
              (u "<HttpError 403 when requesting the calendar returned Rate Limit Exceeded>"))
    as (before & Hrun & _).
  - vm_compute. find_event.
  - reflexivity.
  - by vm_compute.
  - exists before. exact Hrun.
Defined.

Lemma success_message_with_warning (title time user_id guests : str)
    (meet_url event_url : option str) (w : str) (failed : list str) :
  truthy w = true →
  success_message title time user_id guests meet_url event_url (Some w) failed
    = meeting_details title time user_id guests meet_url event_url
        ++ [ch_nl] ++ u "自動録画: ⚠️ 設定に失敗しました (" ++ w ++ u ")"
        ++ guest_warning failed.
Proof.
  intros Hw. unfold success_message, recording_warning. simpl. rewrite Hw.
  f_equal. simpl. f_equal. by rewrite <- !app_assoc.
Qed.



(** ** Guests *)

Section GuestFacts.
Variable E : Env.
Variable user_id : str.

Lemma guest_lists_elem mention_ids attendee_emails failed email :
  email ∈ (guest_lists E user_id mention_ids attendee_emails failed).1 ↔
  email ∈ attendee_emails ∨
  ∃ mid, mid ∈ mention_ids ∧ mid ≠ user_id ∧ directory_email E mid = Some email.
Proof.
  revert attendee_emails failed.
  induction mention_ids as [|m rest IH]; intros att failed; simpl.
  - split; [auto|]. intros [?|(mid & Hin & _)]; [done|]. by apply elem_of_nil in Hin.
  - case_bool_decide as Hm.
    + rewrite IH. split; intros [?|(mid & Hin & Hne & Hmail)]; auto.
      * right. exists mid. rewrite elem_of_cons. auto.
      * apply elem_of_cons in Hin as [->|Hin]; [done|]. eauto.
    + destruct (directory_email E m) as [email'|] eqn:Hmail.
      * case_bool_decide as Hdup; rewrite IH.
        -- split; intros [?|(mid & Hin & Hne & Hmail')]; auto.
           ++ right. exists mid. rewrite elem_of_cons. auto.
           ++ apply elem_of_cons in Hin as [->|Hin]; [left; congruence|]. eauto.
        -- rewrite elem_of_app, list_elem_of_singleton.
           split; intros [H|(mid & Hin & Hne & Hmail')].
           ++ destruct H as [?| ->]; [auto|]. right. exists m. rewrite elem_of_cons. auto.
           ++ right. exists mid. rewrite elem_of_cons. auto.
           ++ auto.
           ++ apply elem_of_cons in Hin as [->|Hin]; [left; right; congruence|]. eauto.
      * rewrite IH. split; intros [?|(mid & Hin & Hne & Hmail')]; auto.
        -- right. exists mid. rewrite elem_of_cons. auto.
        -- apply elem_of_cons in Hin as [->|Hin]; [congruence|]. eauto.
Qed.

Lemma guest_lists_NoDup mention_ids attendee_emails failed :
  NoDup attendee_emails →
  NoDup (guest_lists E user_id mention_ids attendee_emails failed).1.
Proof.
  revert attendee_emails failed.
  induction mention_ids as [|m rest IH]; intros att failed Hnd; simpl; [done|].
  case_bool_decide; [by apply IH|].
  destruct (directory_email E m) as [email|]; [|by apply IH].
  case_bool_decide as Hdup; apply IH; [done|].
  apply NoDup_app. repeat split; [done| |apply NoDup_singleton].
  intros x Hx ->%list_elem_of_singleton. done.
Qed.

Lemma mention_inj (a b : str) : mention a = mention b → a = b.
Proof.
  unfold mention. intros H. apply app_inv_head in H. by apply app_inv_tail in H.
Qed.

Lemma owner_not_among_guests (mention_ids : list str) :
  mention user_id ∉ (mention <$> filter (λ mid, mid ≠ user_id) mention_ids).
Proof.
  intros (mid & Heq%mention_inj & Hin)%list_elem_of_fmap.
  apply list_elem_of_filter in Hin as [Hne _]. congruence.
Qed.

Lemma directory_stage_of_lookups (l : list str) :
  filter (λ ev, stage ev = 2%nat) (EvUsersInfo <$> l) = EvUsersInfo <$> l.
Proof.
  induction l as [|x l IH]; [done|].
  rewrite fmap_cons, filter_cons_True by done. by rewrite IH.
Qed.
End GuestFacts.

(** C8: in a run that reaches the creation of the event, the attendee
    list has no duplicate and holds exactly the addresses the directory
    gives for the mentions other than the owner's own handle; the
    directory is asked once for the owner and then once for each of
    those mentions only; and the guest line of the channel message is
    built from those mentions only, so it has no entry for the owner. *)
Theorem owner_mention_is_not_a_guest (py : PyRuntime) (E : Env) (command : Command)
    (fs : Files) (body : EventBody) :
  EvEventsInsert body ∈ trace (handle_mtg_command py E command fs) →
  ∃ request,
    parse_command py (strip py (cmd_text command)) = Parsed request ∧
    let user_id := cmd_user_id command in
    let ids := findall_mentions (mentions_text request) in
    let guests := filter (λ mid, mid ≠ user_id) ids in
    NoDup (attendees body) ∧
    (∀ email, email ∈ attendees body ↔
       ∃ mid, mid ∈ guests ∧ directory_email E mid = Some email) ∧
    filter (λ ev, stage ev = 2%nat) (trace (handle_mtg_command py E command fs))
      = EvUsersInfo user_id :: (EvUsersInfo <$> guests) ∧
    (mention user_id ∉ (mention <$> guests)) ∧
    (ids ≠ [] → guest_list_str user_id ids = join (u ", ") (mention <$> guests)) ∧
    ∀ message, EvRespond message in_channel ∈ trace (handle_mtg_command py E command fs) →
      ∃ time meet_url event_url warnings,
        message = meeting_details (summary body) time user_id (guest_list_str user_id ids)
                    meet_url event_url ++ warnings.
Proof.
  mtg_cases py E command fs; unfold trace; simpl; intros Hin;
    try (destruct Ht as [->|(cid & _ & [->|[url ->]])]);
    trace_in Hin; injection Hin as ->; exists request; (split; [done|]); cbv zeta.
  all: split; [by apply guest_lists_NoDup, NoDup_nil|].
  all: split;
    [intros email; simpl; rewrite guest_lists_elem; split;
       [intros [Hnil|(mid & Hmid & Hne & Hmail)]; [by apply elem_of_nil in Hnil|];
        exists mid; by rewrite list_elem_of_filter
       |intros (mid & [Hne Hmid]%list_elem_of_filter & Hmail); eauto]|].
  all: split;
    [repeat (rewrite filter_cons_False by (simpl; lia));
     rewrite filter_cons_True by done; f_equal;
     rewrite filter_app, directory_stage_of_lookups;
     repeat (rewrite filter_cons_False by (simpl; lia));
     rewrite ?filter_nil, ?app_nil_r; reflexivity|].
  all: split; [apply owner_not_among_guests|].
  all: split; [unfold guest_list_str; by destruct (findall_mentions _)|].
  all: intros message Hmsg; trace_in Hmsg; try (injection Hmsg as ->);
       unfold success_message; eauto.
Qed.

Lemma owner_mention_is_not_a_guest_witness :
  EvEventsInsert
      (event_body_of py_ascii (u "U001") (u "[dev]Weekly Sync") 1700000000000000
         1700001800000000 [u "bob@org.com"])
    ∈ trace (handle_mtg_command py_ascii demo_env demo_command demo_files)
  ∧ NoDup [u "bob@org.com"].
Proof.
  assert (EvEventsInsert
            (event_body_of py_ascii (u "U001") (u "[dev]Weekly Sync") 1700000000000000
               1700001800000000 [u "bob@org.com"])
          ∈ trace (handle_mtg_command py_ascii demo_env demo_command demo_files)) as Hin
    by (vm_compute; find_event).
  split; [exact Hin|].
  destruct (owner_mention_is_not_a_guest py_ascii demo_env demo_command demo_files _ Hin)
    as (request & _ & Hnodup & _).
  exact Hnodup.
Defined.

(** ** The order of the stages *)









(** * Further properties *)

(** ** [handle_reg_prefix] *)

(** Every way [handle_reg_prefix] can run, one goal for each. *)
Ltac reg_cases py E command fs :=
  rewrite (handle_reg_prefix_run py E command fs); cbv zeta;
  rewrite check_permission_run;
  destruct (permitted E (cmd_user_id command) (cmd_channel_id command))
    as [[]|] eqn:?Hperm;
  [rewrite set_prefix_run; cbv zeta;
   destruct (lock_acquire E (prefix_lockpath (cmd_channel_id command)))
     as [?e|] eqn:?Hlock;
   [|destruct (truthy (strip py (cmd_text command))) eqn:?Htext;
     [destruct (open_write_error E (prefix_filepath (cmd_channel_id command)))
        as [?e|] eqn:?Hwrite
     |destruct (fs !! prefix_filepath (cmd_channel_id command))
        as [?content|] eqn:?Hfile;
      [destruct (os_remove_error E (prefix_filepath (cmd_channel_id command)))
         as [?e|] eqn:?Hremove|]]]
  | |].

(** X1: a caller who is not let through (no admin, no owner, not the
    channel's creator, or the directory call failed) leaves the store
    alone: the files are unchanged, no lock is taken, no file is looked
    at, and the only reply is a private one. *)
Theorem reg_prefix_requires_permission (py : PyRuntime) (E : Env) (command : Command)
    (fs : Files) :
  permitted E (cmd_user_id command) (cmd_channel_id command) ≠ Some true →
  outcome (handle_reg_prefix py E command fs) = Returned ∧
  files_after (handle_reg_prefix py E command fs) = fs ∧
  Forall (λ ev, stage ev ≠ 1%nat) (trace (handle_reg_prefix py E command fs)) ∧
  ∃ message, replies (trace (handle_reg_prefix py E command fs))
             = [EvRespond message None].
Proof.
  intros Hne. reg_cases py E command fs; try done;
    unfold outcome, files_after, trace, replies; simpl;
    (split; [done|]); (split; [done|]);
    (split; [repeat (apply Forall_cons_2; [simpl; lia|]); apply Forall_nil_2|]);
    eexists; reflexivity.
Qed.

Lemma reg_prefix_requires_permission_witness :
  permitted demo_env (u "U123") (u "C42") ≠ Some true
  ∧ files_after (handle_reg_prefix py_ascii demo_env
                   {| cmd_user_id := u "U123"; cmd_channel_id := u "C42";
                      cmd_text := u "[ops]" |} demo_files) = demo_files.
Proof.
  assert (permitted demo_env (u "U123") (u "C42") ≠ Some true) as Hne
    by (vm_compute; discriminate).
  split; [exact Hne|].
  exact (proj1 (proj2 (reg_prefix_requires_permission py_ascii demo_env
                         {| cmd_user_id := u "U123"; cmd_channel_id := u "C42";
                            cmd_text := u "[ops]" |} demo_files Hne))).
Defined.






(** ** The records of different channels *)




(** ** The helpers *)

(** X5: [get_user_email] never fails: it makes one directory call,
    leaves the files alone and returns a value.  The value is an address
    only if the call answered with [ok] and a non-empty profile address;
    an exception of the call, a missing or an empty address all give
    [None]. *)
Theorem get_user_email_never_raises (E : Env) (user_id : str) (fs : Files) :
  ∃ result,
    get_user_email E user_id fs = (Val result, fs, [EvUsersInfo user_id]) ∧
    (∀ email, result = Some email ↔
       email ≠ [] ∧
       ∃ user_info, users_info E user_id = inr user_info ∧
                    ui_ok user_info = true ∧ ui_email user_info = Some email).
Proof.
  exists (directory_email E user_id). split; [apply get_user_email_run|].
  intros email. unfold directory_email.
  destruct (users_info E user_id) as [e|ui].
  { split; [done|]. by intros (_ & ? & [=] & _). }
  destruct (ui_ok ui) eqn:Hok; simpl.
  - destruct (ui_email ui) as [[|c mail]|] eqn:Hmail; simpl.
    + split; [done|]. intros (Hne & ? & [= <-] & _ & Heq). congruence.
    + split.
      * intros [= <-]. split; [done|]. eauto.
      * intros (_ & ? & [= <-] & _ & Heq). congruence.
    + split; [done|]. intros (_ & ? & [= <-] & _ & Heq). congruence.
  - split; [done|]. intros (_ & ? & [= <-] & ? & _). congruence.
Qed.

(** X6: [get_meet_space_id] never fails and returns either a space name
    or an error message, never both and never neither.  Without a
    conference identifier it makes no request; otherwise it makes one GET
    for that conference.  A name is returned only for a 200 answer that
    carries a non-empty [name]; the error message is never empty. *)
Theorem get_meet_space_id_total (E : Env) (conference_id : option str) (fs : Files) :
  ∃ space error t,
    get_meet_space_id E conference_id fs = (Val (space, error), fs, t) ∧
    (is_Some space ↔ error = None) ∧
    (∀ message, error = Some message → message ≠ []) ∧
    (t = if truthy_opt conference_id
         then [EvHttpGet (space_url (default [] conference_id))] else []) ∧
    (∀ name, space = Some name →
       name ≠ [] ∧
       ∃ response,
         requests_get E (space_url (default [] conference_id)) = inr response ∧
         status_code response = 200%Z ∧ json_name response = inr (Some name)).
Proof.
  assert (∀ a b, a ≠ [] → a ++ b ≠ ([] : str)) as Happ by (by intros [|??] ?).
  unfold get_meet_space_id, space_url.
  destruct (truthy_opt conference_id) eqn:Hcid; simpl.
  - unfold_M.
    destruct (requests_get E _) as [e|resp] eqn:Hget; simpl.
    + destruct (exn_cls e); eexists _, _, _; (split; [reflexivity|]);
        (split; [split; [by intros []|done]|]);
        (split; [intros ? [= <-]; apply Happ; by vm_compute|]); by split.
    + destruct (status_code resp =? 200)%Z eqn:H200; simpl.
      * apply Z.eqb_eq in H200.
        destruct (json_name resp) as [e|name] eqn:Hname; simpl.
        -- destruct (exn_cls e); eexists _, _, _; (split; [reflexivity|]);
             (split; [split; [by intros []|done]|]);
             (split; [intros ? [= <-]; apply Happ; by vm_compute|]); by split.
        -- destruct name as [[|c name]|]; simpl; eexists _, _, _;
             (split; [reflexivity|]).
           ++ split; [split; [by intros []|done]|].
              split; [intros ? [= <-]; apply Happ; by vm_compute|]. by split.
           ++ split; [split; [done|eauto]|]. split; [done|]. split; [done|].
              intros ? [= <-]. split; [done|]. eauto.
           ++ split; [split; [by intros []|done]|].
              split; [intros ? [= <-]; apply Happ; by vm_compute|]. by split.
      * destruct (status_code resp =? 404)%Z; eexists _, _, _; (split; [reflexivity|]);
          (split; [split; [by intros []|done]|]);
          (split; [intros ? [= <-]; apply Happ; by vm_compute|]); by split.
  - eexists _, _, _. split; [reflexivity|].
    split; [split; [by intros []|done]|].
    split; [intros ? [= <-]; by vm_compute|]. by split.
Qed.

(** X7: [enable_meet_auto_artifact] never fails and reports success
    exactly when it has no error message.  It makes at most one PATCH,
    always with the update mask of the three artifact settings, and none
    without a space name; success means that the PATCH was answered with
    a status from 200 to 299. *)
Theorem enable_meet_auto_artifact_total (E : Env) (space_id : option str) (fs : Files) :
  ∃ configured error t,
    enable_meet_auto_artifact E space_id fs = (Val (configured, error), fs, t) ∧
    (configured = true ↔ error = None) ∧
    (t = if truthy_opt space_id
         then [EvHttpPatch (MEET_API_BASE_URL ++ u "/" ++ default [] space_id)
                 updateMask_artifacts]
         else []) ∧
    (configured = true →
       ∃ response,
         requests_patch E (MEET_API_BASE_URL ++ u "/" ++ default [] space_id)
           = inr response ∧
         (200 ≤ status_code response < 300)%Z).
Proof.
  unfold enable_meet_auto_artifact.
  destruct (truthy_opt space_id) eqn:Hsid; simpl.
  - unfold_M.
    destruct (requests_patch E _) as [e|resp] eqn:Hpatch; simpl.
    + destruct (exn_cls e); eexists _, _, _; (split; [reflexivity|]);
        (split; [done|]); by split.
    + destruct ((200 <=? status_code resp)%Z && (status_code resp <? 300)%Z) eqn:Hok;
        simpl.
      * eexists _, _, _. split; [reflexivity|]. split; [done|]. split; [done|].
        intros _. exists resp. split; [done|].
        apply andb_true_iff in Hok as [?%Z.leb_le ?%Z.ltb_lt]. lia.
      * destruct (status_code resp =? 403)%Z; eexists _, _, _;
          (split; [reflexivity|]); (split; [done|]); by split.
  - eexists _, _, _. split; [reflexivity|]. split; [done|]. by split.
Qed.

(** ** The pipeline of [handle_mtg_command] *)

Lemma replies_of_lookups (l : list str) : replies (EvUsersInfo <$> l) = [].
Proof.
  unfold replies. induction l as [|x l IH]; [done|].
  rewrite fmap_cons, filter_cons_False; [done|]. by unfold is_reply.
Qed.

Lemma replies_app (t1 t2 : list Event) : replies (t1 ++ t2) = replies t1 ++ replies t2.
Proof. apply filter_app. Qed.

Lemma replies_cons (ev : Event) (t : list Event) :
  replies (ev :: t) = if decide (is_reply ev) then ev :: replies t else replies t.
Proof. unfold replies. rewrite filter_cons. by destruct (decide _). Qed.

Ltac count_replies :=
  repeat first
    [ rewrite replies_of_lookups
    | rewrite replies_app
    | rewrite replies_cons; simpl decide ];
  change (replies []) with (@nil Event); simpl.

(** X8: [handle_mtg_command] sends at most one reply, and which one
    tells how the run ended: a run that ends by an exception has sent
    none, a run that stops early has sent exactly one private reply, and
    a run that goes through has sent exactly one reply, to the channel,
    as its last event. *)
Theorem mtg_reply_discipline (py : PyRuntime) (E : Env) (command : Command) (fs : Files) :
  match outcome (handle_mtg_command py E command fs) with
  | Raised _ => replies (trace (handle_mtg_command py E command fs)) = []
  | Returned =>
      ∃ message,
        replies (trace (handle_mtg_command py E command fs)) = [EvRespond message None]
  | Val _ =>
      ∃ message,
        replies (trace (handle_mtg_command py E command fs))
          = [EvRespond message in_channel] ∧
        last (trace (handle_mtg_command py E command fs))
          = Some (EvRespond message in_channel)
  end.
Proof.
  mtg_cases py E command fs; unfold outcome, trace; simpl;
    try (destruct Ht as [->|(cid & _ & [->|[url ->]])]); simpl;
    count_replies; eauto.
  all: eexists; split; [reflexivity|];
       rewrite ?last_cons, ?last_app; reflexivity.
Qed.

(** X9: once the event is created nothing can stop the command.
    Whatever the Meet API does (exceptions, any status, a missing name or
    conference identifier), the run ends normally; after the creation
    there are at most one GET and then at most one PATCH, followed by the
    reply to the channel, which carries the meeting details. *)
Theorem artifacts_never_stop_the_command (py : PyRuntime) (E : Env) (command : Command)
    (fs : Files) (body : EventBody) (created : CreatedEvent) :
  EvEventsInsert body ∈ trace (handle_mtg_command py E command fs) →
  events_insert E body = inr created →
  ∃ before calls time guests warnings,
    handle_mtg_command py E command fs
      = (Val (), fs,
         before ++ [EvEventsInsert body] ++ calls ++
           [EvRespond
              (meeting_details (summary body) time (cmd_user_id command) guests
                 (hangoutLink created) (htmlLink created) ++ warnings)
              in_channel]) ∧
    Forall (λ ev, (stage ev < 4)%nat) before ∧
    (calls = [] ∨
     (∃ get, calls = [EvHttpGet get]) ∨
     (∃ get patch, calls = [EvHttpGet get; EvHttpPatch patch updateMask_artifacts])).
Proof.
  intros Hin Hok. revert Hin.
  mtg_cases py E command fs; unfold trace; simpl; intros Hin;
    try (destruct Ht as [->|(cid' & Hcid' & [->|[url ->]])]);
    trace_in Hin; injection Hin as ->; simpl in Hinsert; rewrite Hok in Hinsert;
    try discriminate Hinsert; injection Hinsert as <-.
  all: simpl; unfold success_message;
       match goal with
       | |- context [[?a; ?b; EvEventsInsert ?x; ?r]] =>
           change [a; b; EvEventsInsert x; r]
             with ([a; b] ++ [EvEventsInsert x] ++ [] ++ [r])
       | |- context [[?a; ?b; EvEventsInsert ?x; ?g; ?r]] =>
           change [a; b; EvEventsInsert x; g; r]
             with ([a; b] ++ [EvEventsInsert x] ++ [g] ++ [r])
       | |- context [[?a; ?b; EvEventsInsert ?x; ?g; ?p; ?r]] =>
           change [a; b; EvEventsInsert x; g; p; r]
             with ([a; b] ++ [EvEventsInsert x] ++ [g; p] ++ [r])
       end;
       rewrite app_assoc, !app_comm_cons;
       eexists _, _, _, _, _; split; [reflexivity|]; split; [before_creation|]; eauto.
Qed.

Lemma artifacts_never_stop_the_command_witness :
  outcome (handle_mtg_command py_ascii
             (demo_env_with None (inr demo_event) (inl connection_reset))
             demo_command demo_files) = Val ().
Proof.
  destruct (artifacts_never_stop_the_command py_ascii
              (demo_env_with None (inr demo_event) (inl connection_reset))
              demo_command demo_files
              (event_body_of py_ascii (u "U001") (u "[dev]Weekly Sync") 1700000000000000
                 1700001800000000 [u "bob@org.com"])
              demo_event) as (before & calls & time & guests & w & Hrun & _).
  - vm_compute. find_event.
  - reflexivity.
  - by rewrite Hrun.
Defined.

Lemma configure_artifacts_ok (E : Env) (cid name : str) (found patched : HttpResponse)
    (fs : Files) :
  cid ≠ [] → name ≠ [] →
  requests_get E (space_url cid) = inr found →
  status_code found = 200%Z →
  json_name found = inr (Some name) →
  requests_patch E (MEET_API_BASE_URL ++ u "/" ++ name) = inr patched →
  (200 ≤ status_code patched < 300)%Z →
  configure_artifacts E (Some cid) fs
    = (Val None, fs,
       [EvHttpGet (space_url cid);
        EvHttpPatch (MEET_API_BASE_URL ++ u "/" ++ name) updateMask_artifacts]).
Proof.
  intros Hcid Hname Hget H200 Hjson Hpatch Hok.
  assert (truthy cid = true) as Hc by (by destruct cid).
  assert (truthy name = true) as Hn by (by destruct name).
  unfold configure_artifacts, get_meet_space_id, enable_meet_auto_artifact. simpl.
  rewrite Hc. simpl. fold (space_url cid). unfold_M. rewrite Hget. simpl.
  rewrite H200. simpl. rewrite Hjson. simpl. rewrite Hn. simpl. rewrite Hn. simpl.
  rewrite Hpatch. simpl.
  assert ((200 <=? status_code patched)%Z && (status_code patched <? 300)%Z = true) as ->.
  { apply andb_true_iff. split; [apply Z.leb_le | apply Z.ltb_lt]; lia. }
  done.
Qed.

(** X10: when the space is found (200 with a name) and the update of its
    artifact settings is accepted (a status from 200 to 299), the message
    to the channel has no line about the recording: it is the meeting
    details followed only by the guest warning, if any; and the run made
    exactly one GET and one PATCH after creating the event. *)
Theorem configured_recording_has_no_warning (py : PyRuntime) (E : Env)
    (command : Command) (fs : Files) (body : EventBody) (created : CreatedEvent)
    (cid name : str) (found patched : HttpResponse) :
  EvEventsInsert body ∈ trace (handle_mtg_command py E command fs) →
  events_insert E body = inr created →
  conferenceId created = Some cid →
  cid ≠ [] → name ≠ [] →
  requests_get E (space_url cid) = inr found →
  status_code found = 200%Z →
  json_name found = inr (Some name) →
  requests_patch E (MEET_API_BASE_URL ++ u "/" ++ name) = inr patched →
  (200 ≤ status_code patched < 300)%Z →
  ∃ before time guests failed,
    handle_mtg_command py E command fs
      = (Val (), fs,
         before ++
           [EvEventsInsert body; EvHttpGet (space_url cid);
            EvHttpPatch (MEET_API_BASE_URL ++ u "/" ++ name) updateMask_artifacts;
            EvRespond
              (meeting_details (summary body) time (cmd_user_id command) guests
                 (hangoutLink created) (htmlLink created) ++ guest_warning failed)
              in_channel]) ∧
    Forall (λ ev, (stage ev < 4)%nat) before.
Proof.
  intros Hin Hok Hcid Hne Hname Hget H200 Hjson Hpatch H2xx. revert Hin.
  mtg_cases py E command fs; unfold trace; simpl; intros Hin;
    try (destruct Ht as [->|(cid' & Hcid' & [->|[url ->]])]);
    trace_in Hin; injection Hin as ->; simpl in Hinsert; rewrite Hok in Hinsert;
    try discriminate Hinsert; injection Hinsert as <-;
    rewrite Hcid,
      (configure_artifacts_ok E cid name found patched fs Hne Hname Hget H200 Hjson
         Hpatch H2xx) in Hrun;
    pose proof (f_equal (λ x, length x.2) Hrun) as Hlen; simpl in Hlen;
    try discriminate Hlen;
    pose proof (f_equal outcome Hrun) as Hmsg; injection Hmsg as <-;
    pose proof (f_equal (λ x, x.2) Hrun) as Ht; simpl in Ht; rewrite <- Ht.
  all: simpl; unfold success_message, recording_warning; simpl;
       match goal with
       | |- context [[?a; ?b; EvEventsInsert ?x; ?g; ?p; ?r]] =>
           change [a; b; EvEventsInsert x; g; p; r]
             with ([a; b] ++ [EvEventsInsert x; g; p; r])
       end;
       rewrite app_assoc, !app_comm_cons;
       eexists _, _, _, _; split; [reflexivity | before_creation].
Qed.

Lemma configured_recording_has_no_warning_witness :
  ∃ before time guests failed,
    handle_mtg_command py_ascii demo_env demo_command demo_files
      = (Val (), demo_files,
         before ++
           [EvEventsInsert
              (event_body_of py_ascii (u "U001") (u "[dev]Weekly Sync") 1700000000000000
                 1700001800000000 [u "bob@org.com"]);
            EvHttpGet (space_url (u "abc-defg-hij"));
            EvHttpPatch (MEET_API_BASE_URL ++ u "/" ++ u "spaces/s1") updateMask_artifacts;
            EvRespond
              (meeting_details (u "[dev]Weekly Sync") time (u "U001") guests
                 (Some (u "https://meet.example/abc-defg-hij"))
                 (Some (u "https://calendar.example/e1")) ++ guest_warning failed)
              in_channel]) ∧
    Forall (λ ev, (stage ev < 4)%nat) before.
Proof.
  apply (configured_recording_has_no_warning py_ascii demo_env demo_command demo_files
           (event_body_of py_ascii (u "U001") (u "[dev]Weekly Sync") 1700000000000000
              1700001800000000 [u "bob@org.com"])
           demo_event (u "abc-defg-hij") (u "spaces/s1")
           {| status_code := 200; json_name := inr (Some (u "spaces/s1")); text := [] |}
           {| status_code := 200; json_name := inr None; text := [] |}).
  - vm_compute. find_event.
  - reflexivity.
  - reflexivity.
  - by vm_compute.
  - by vm_compute.
  - reflexivity.
  - reflexivity.
  - reflexivity.
  - reflexivity.
  - simpl. lia.
Defined.

(** X11: a run that reaches the lookup of the owner and finds no
    accepted owner (no address for the handle, an address without an at
    sign, or a domain other than the organisation's, compared in lower
    case) stops right there: that lookup is its only directory call, a
    private reply follows, and no guest is looked up, no credential is
    requested and no event is created. *)
Theorem rejected_owner_stops_the_command (py : PyRuntime) (E : Env) (command : Command)
    (fs : Files) :
  EvUsersInfo (cmd_user_id command) ∈ trace (handle_mtg_command py E command fs) →
  ¬ owner_accepted py E (cmd_user_id command) →
  ∃ before message,
    handle_mtg_command py E command fs
      = (Returned, fs,
         before ++ [EvUsersInfo (cmd_user_id command); EvRespond message None]) ∧
    Forall (λ ev, (stage ev ≤ 1)%nat) before.
Proof.
  intros Hin Hrej. revert Hin.
  mtg_cases py E command fs; unfold trace; simpl; intros Hin;
    try (exfalso; apply Hrej; unfold owner_accepted; by eauto);
    try (exfalso; trace_in Hin; fail).
  all: match goal with
       | |- context [[EvUsersInfo ?x; ?r]] =>
           match goal with
           | |- context [?a :: ?b :: ?c :: ?d :: ?e :: [EvUsersInfo x; r]] =>
               change (a :: b :: c :: d :: e :: [EvUsersInfo x; r])
                 with ([a; b; c; d; e] ++ [EvUsersInfo x; r])
           | |- context [?a :: ?b :: ?c :: ?d :: [EvUsersInfo x; r]] =>
               change (a :: b :: c :: d :: [EvUsersInfo x; r])
                 with ([a; b; c; d] ++ [EvUsersInfo x; r])
           end
       end;
       eexists _, _; split; [reflexivity|];
       repeat (apply Forall_cons_2; [simpl; lia|]); apply Forall_nil_2.
Qed.

Lemma rejected_owner_stops_the_command_witness :
  ∃ before message,
    handle_mtg_command py_ascii demo_env
        {| cmd_user_id := u "U999"; cmd_channel_id := u "C42";
           cmd_text := u "standup 15 <@U123>" |} demo_files
      = (Returned, demo_files, before ++ [EvUsersInfo (u "U999"); EvRespond message None]) ∧
    Forall (λ ev, (stage ev ≤ 1)%nat) before.
Proof.
  apply (rejected_owner_stops_the_command py_ascii demo_env
           {| cmd_user_id := u "U999"; cmd_channel_id := u "C42";
              cmd_text := u "standup 15 <@U123>" |} demo_files).
  - vm_compute. find_event.
  - intros (owner & domain & Hmail & _). by vm_compute in Hmail.
Defined.

(** X12: the duration has no upper bound in the parser, but
    [timedelta(minutes=...)] has one.  For a duration of 1440000000000
    minutes or more no event is ever created; and when the prefix was
    loaded and the owner accepted, the run ends with an [OverflowError]
    that nothing catches, after the directory lookups and without any
    reply. *)
Theorem huge_duration_overflows (py : PyRuntime) (E : Env) (command : Command)
    (fs : Files) (request : MeetingRequest) :
  parse_command py (strip py (cmd_text command)) = Parsed request →
  (1440000000000 ≤ duration_minutes request)%Z →
  Forall (λ ev, (stage ev ≤ 2)%nat ∨ is_reply ev)
    (trace (handle_mtg_command py E command fs)) ∧
  ((∃ prefix, outcome (load_prefix py E (cmd_channel_id command) fs) = Val prefix) →
   owner_accepted py E (cmd_user_id command) →
   ∃ e, outcome (handle_mtg_command py E command fs) = Raised e ∧
        exn_cls e = OverflowError ∧
        replies (trace (handle_mtg_command py E command fs)) = []).
Proof.
  intros Hparse Hbig.
  assert (end_time (now E) (duration_minutes request)
          = inl (overflow (u "days=" ++ str_of_Z (duration_minutes request / 1440)
                           ++ u "; must have magnitude <= 999999999"))) as Hover.
  { unfold end_time.
    assert ((999999999 <? duration_minutes request / 1440)%Z = true) as ->; [|done].
    apply Z.ltb_lt.
    assert (1000000000 ≤ duration_minutes request / 1440)%Z; [|lia].
    apply Z.div_le_lower_bound; lia. }
  rewrite (load_prefix_run py E (cmd_channel_id command) fs). cbv zeta.
  mtg_cases py E command fs; unfold trace, outcome; simpl;
    rewrite ?Hparse in *; simplify_eq;
    try (rewrite Hover in Hend; discriminate Hend);
    try (rewrite Hover in Hend; injection Hend as <-).
  all: split;
    [repeat first
       [ apply Forall_nil_2
       | apply Forall_cons_2; [first [left; simpl; lia | by right]|]
       | apply Forall_app_2
       | apply Forall_fmap, Forall_true; intros ?; left; simpl; lia ]|].
  all: intros [prefix Hload] Hacc; try discriminate Hload;
       try (exfalso; destruct Hacc as (o & d & Ho & Hd & Heq); congruence).
  all: eexists; split; [reflexivity|]; split; [reflexivity|]; count_replies; done.
Qed.

Lemma huge_duration_overflows_witness :
  parse_command py_ascii (strip py_ascii (u "standup 1440000000000"))
    = Parsed {| meeting_title := u "standup"; duration_minutes := 1440000000000;
                mentions_text := [] |}
  ∧ replies (trace (handle_mtg_command py_ascii demo_env
                      {| cmd_user_id := u "U001"; cmd_channel_id := u "C42";
                         cmd_text := u "standup 1440000000000" |} demo_files)) = [].
Proof.
  split; [reflexivity|].
  destruct (huge_duration_overflows py_ascii demo_env
              {| cmd_user_id := u "U001"; cmd_channel_id := u "C42";
                 cmd_text := u "standup 1440000000000" |} demo_files
              {| meeting_title := u "standup"; duration_minutes := 1440000000000;
                 mentions_text := [] |} eq_refl) as [_ H].
  - simpl. lia.
  - destruct H as (e & _ & _ & Hreplies).
    + exists (u "[dev]"). reflexivity.
    + exists (u "alice@org.com"), (u "org.com"). by vm_compute.
    + exact Hreplies.
Defined.

Lemma guest_lists_failed (E : Env) (user_id : str)
    (mention_ids attendee_emails failed : list str) :
  (guest_lists E user_id mention_ids attendee_emails failed).2
    = failed ++ (mention <$> filter (λ mid, mid ≠ user_id ∧ directory_email E mid = None)
                               mention_ids).
Proof.
  revert attendee_emails failed.
  induction mention_ids as [|m rest IH]; intros att failed; simpl.
  - by rewrite app_nil_r.
  - rewrite filter_cons. case_bool_decide as Hm.
    + rewrite decide_False by (by intros [? _]). apply IH.
    + destruct (directory_email E m) as [email|] eqn:Hmail.
      * rewrite decide_False by (intros [_ ?]; congruence). case_bool_decide; apply IH.
      * rewrite decide_True by done. rewrite IH, fmap_cons, <- app_assoc. done.
Qed.

(** X13: the guests the message to the channel reports as not invited
    are exactly the mentions, other than the owner's own, for which the
    directory gave no address, in the order of the command text (a handle
    mentioned twice is listed twice); with no such mention the message
    has no guest warning. *)
Theorem unresolved_guests_are_reported (py : PyRuntime) (E : Env) (command : Command)
    (fs : Files) (message : str) :
  EvRespond message in_channel ∈ trace (handle_mtg_command py E command fs) →
  ∃ request title time meet_url event_url recording,
    parse_command py (strip py (cmd_text command)) = Parsed request ∧
    let user_id := cmd_user_id command in
    let ids := findall_mentions (mentions_text request) in
    let unresolved :=
      mention <$> filter (λ mid, mid ≠ user_id ∧ directory_email E mid = None) ids in
    message
      = meeting_details title time user_id (guest_list_str user_id ids) meet_url event_url
          ++ recording_warning recording ++ guest_warning unresolved ∧
    (unresolved = [] → guest_warning unresolved = []) ∧
    (unresolved ≠ [] →
     guest_warning unresolved
       = [ch_nl; ch_nl]
           ++ u "⚠️ 注意: 次のゲストのメールアドレスが見つからず、招待できませんでした: "
           ++ join (u ", ") unresolved).
Proof.
  mtg_cases py E command fs; unfold trace; simpl; intros Hin;
    try (destruct Ht as [->|(cid & _ & [->|[url ->]])]);
    trace_in Hin; injection Hin as ->.
  all: eexists request, _, _, _, _, _; split; [done|]; cbv zeta;
       rewrite guest_lists_failed; simpl;
       (split; [reflexivity|]); split; [by intros ->|];
       intros Hne; unfold guest_warning;
       by destruct (mention <$> filter _ _).
Qed.

Lemma unresolved_guests_are_reported_witness :
  ∃ message,
    EvRespond message in_channel
      ∈ trace (handle_mtg_command py_ascii demo_env demo_command demo_files)
    ∧ mention <$> filter (λ mid, mid ≠ u "U001" ∧ directory_email demo_env mid = None)
                    [u "U123"; u "U001"; u "W456"; u "U999"]
      = [mention (u "U999")].
Proof.
  assert (∃ message,
            EvRespond message in_channel
              ∈ trace (handle_mtg_command py_ascii demo_env demo_command demo_files))
    as [message Hin].
  { eexists. vm_compute. find_event. }
  exists message. split; [exact Hin|].
  destruct (unresolved_guests_are_reported py_ascii demo_env demo_command demo_files
              message Hin) as (request & _).
  by vm_compute.
Defined.

(** X14: neither handler leaves the channel's lock held.  In every run,
    also one that stops early or ends by an exception inside the locked
    block, a lock that was acquired is released, and nothing but file
    operations on the channel's record (and, in [/mtg], the reply about
    an unreadable record) happens while it is held. *)
Theorem lock_is_always_released (py : PyRuntime) (E : Env) (command : Command)
    (fs : Files) :
  lock_acquire E (prefix_lockpath (cmd_channel_id command)) = None →
  (EvLockAcquire (prefix_lockpath (cmd_channel_id command))
     ∈ trace (handle_reg_prefix py E command fs) →
   ∃ before held after,
     trace (handle_reg_prefix py E command fs)
       = before ++ [EvLockAcquire (prefix_lockpath (cmd_channel_id command))]
           ++ held ++ [EvLockRelease (prefix_lockpath (cmd_channel_id command))] ++ after ∧
     Forall (λ ev, stage ev = 1%nat) held ∧
     Forall (λ ev, stage ev ≠ 1%nat) (before ++ after)) ∧
  ∃ held after,
    trace (handle_mtg_command py E command fs)
      = [EvAck; EvLockAcquire (prefix_lockpath (cmd_channel_id command))]
          ++ held ++ [EvLockRelease (prefix_lockpath (cmd_channel_id command))] ++ after ∧
    Forall (λ ev, stage ev = 1%nat ∨ is_reply ev) held ∧
    Forall (λ ev, stage ev ≠ 1%nat) after.
Proof.
  intros Hlock. split.
  - reg_cases py E command fs; unfold trace; simpl; intros Hin;
      try (exfalso; trace_in Hin; fail); try congruence.
    all: match goal with
         | |- context [?a :: ?b :: ?c :: EvLockAcquire ?l :: ?rest] =>
             exists [a; b; c]
         end.
    + exists [EvOpenWrite (prefix_filepath (cmd_channel_id command))
                (strip py (cmd_text command))], [EvRespond (store_error_reply e) None].
      split; [reflexivity|]. split; repeat constructor; done.
    + eexists [_], [_]. split; [reflexivity|]. split; repeat constructor; done.
    + eexists [_; _], [_]. split; [reflexivity|]. split; repeat constructor; done.
    + eexists [_; _], [_]. split; [reflexivity|]. split; repeat constructor; done.
    + eexists [_], [_]. split; [reflexivity|]. split; repeat constructor; done.
  - mtg_cases py E command fs; unfold trace; simpl; try congruence;
      try (destruct Ht as [->|(cid & _ & [->|[url ->]])]); simpl.
    all: first
      [ eexists [_; _; _], _; split; [reflexivity|]
      | eexists [_; _], _; split; [reflexivity|]
      | eexists [_], _; split; [reflexivity|] ].
    all: split;
      [repeat (apply Forall_cons_2; [first [by left | by right]|]); apply Forall_nil_2|].
    all: repeat first
           [ apply Forall_nil_2
           | apply Forall_cons_2; [simpl; lia|]
           | apply Forall_app_2
           | apply Forall_fmap, Forall_true; intros ?; simpl; lia ].
Qed.

Lemma lock_is_always_released_witness :
  lock_acquire demo_env (prefix_lockpath (cmd_channel_id demo_command)) = None ∧
  ∃ held after,
    trace (handle_mtg_command py_ascii demo_env demo_command demo_files)
      = [EvAck; EvLockAcquire (prefix_lockpath (cmd_channel_id demo_command))]
          ++ held ++ [EvLockRelease (prefix_lockpath (cmd_channel_id demo_command))]
          ++ after ∧
    Forall (λ ev, stage ev = 1%nat ∨ is_reply ev) held ∧
    Forall (λ ev, stage ev ≠ 1%nat) after.
Proof.
  assert (lock_acquire demo_env (prefix_lockpath (cmd_channel_id demo_command)) = None)
    as Hlock by reflexivity.
  split; [exact Hlock|].
  exact (proj2 (lock_is_always_released py_ascii demo_env demo_command demo_files Hlock)).
Defined.

(** ** Mentions *)

Lemma mention_match_inv (s id rest : str) :
  mention_match s = Some (id, rest) →
  handle_shape id ∧
  ∃ label, s = [ch_lt; ch_at] ++ id ++ label ++ [ch_gt] ++ rest ∧
           (label = [] ∨ ∃ l, label = ch_bar :: l ∧ l ≠ [] ∧
                              Forall (λ a, not_gt a = true) l).
Proof.
  unfold mention_match. intros H.
  apply re_lit_inv in H as (s1 & -> & H).
  apply re_lit_inv in H as (s2 & -> & H).
  apply re_class_inv in H as (c & s3 & -> & Hc & H).
  apply re_plus_inv in H as (m & s4 & -> & Hm & Hall & H).
  unfold re_opt in H.
  destruct (re_lit ch_bar s4 _) as [x|] eqn:Hopt.
  - injection H as ->.
    apply re_lit_inv in Hopt as (s6 & -> & Hopt).
    apply re_plus_inv in Hopt as (l & s7 & -> & Hl & Hlall & Hopt).
    apply re_lit_inv in Hopt as (s9 & -> & [= <- <-]).
    split; [by exists c, m|].
    exists (ch_bar :: l). split; [|right; by exists l].
    simpl. by rewrite <- ?app_assoc.
  - apply re_lit_inv in H as (s9 & -> & [= <- <-]).
    split; [by exists c, m|]. exists []. split; [|by left].
    simpl. by rewrite <- ?app_assoc.
Qed.

Lemma findall_from_cons (skip : nat) (c : char) (r : str) :
  findall_from skip (c :: r) =
    match skip with
    | S n => findall_from n r
    | O =>
        match mention_match (c :: r) with
        | Some (g, rest) => g :: findall_from (length r - length rest) r
        | None => findall_from 0 r
        end
    end.
Proof. reflexivity. Qed.

Lemma findall_from_shape (skip : nat) (s id : str) :
  id ∈ findall_from skip s →
  handle_shape id ∧ ∃ before after, s = before ++ [ch_lt; ch_at] ++ id ++ after.
Proof.
  revert skip. induction s as [|c r IH]; intros skip.
  - intros H. by apply elem_of_nil in H.
  - rewrite findall_from_cons.
    assert (∀ n, id ∈ findall_from n r →
              handle_shape id ∧
              ∃ before after, c :: r = before ++ [ch_lt; ch_at] ++ id ++ after) as Hrest.
    { intros n Hin. destruct (IH n Hin) as (Hshape & before & after & ->).
      split; [done|]. by exists (c :: before), after. }
    destruct skip as [|n]; [|apply Hrest].
    destruct (mention_match (c :: r)) as [[g rest]|] eqn:Hm; [|apply Hrest].
    intros [->|Hin]%elem_of_cons; [|by eapply Hrest].
    apply mention_match_inv in Hm as (Hshape & label & Hs & _).
    split; [done|]. exists [], (label ++ [ch_gt] ++ rest). by rewrite Hs.
Qed.

(** X15: guest handles are only ever taken from mention syntax.  Every
    handle that [findall] returns has the shape of the pattern ([U] or
    [W], then at least one capital letter or digit) and stands in the
    text right behind the two characters that open a mention; a text
    without the opening character yields no handle at all. *)
Theorem mentions_come_from_mention_syntax (text : str) :
  (∀ id, id ∈ findall_mentions text →
     handle_shape id ∧ ∃ before after, text = before ++ [ch_lt; ch_at] ++ id ++ after) ∧
  (ch_lt ∉ text → findall_mentions text = []).
Proof.
  split; [intros id; apply findall_from_shape|].
  intros Hno. destruct (findall_mentions text) as [|id l] eqn:Hf; [done|].
  exfalso. apply Hno.
  destruct (findall_from_shape 0 text id) as (_ & before & after & ->).
  - unfold findall_mentions in Hf. rewrite Hf. apply list_elem_of_here.
  - rewrite elem_of_app. right. apply list_elem_of_here.
Qed.

Lemma mention_match_mention (id tail : str) :
  handle_shape id → mention_match (mention id ++ tail) = Some (id, tail).
Proof.
  intros (c & rest & -> & Hc & Hrest & Hall).
  unfold mention. change (u "<@") with [ch_lt; ch_at]. change (u ">") with [ch_gt].
  unfold mention_match. simpl. rewrite Hc.
  rewrite <- app_assoc.
  apply re_plus_munch; [done..| |by vm_compute].
  by vm_compute.
Qed.

Lemma findall_from_skip (m t : str) : findall_from (length m) (m ++ t) = findall_from 0 t.
Proof. induction m as [|c m IH]; [done|]. simpl length. by rewrite <- app_comm_cons, findall_from_cons. Qed.

Lemma findall_from_mention (id tail : str) :
  handle_shape id → findall_from 0 (mention id ++ tail) = id :: findall_from 0 tail.
Proof.
  intros Hid. pose proof (mention_match_mention id tail Hid) as Hm.
  assert (mention id ++ tail = ch_lt :: (ch_at :: id ++ [ch_gt]) ++ tail) as Heq.
  { unfold mention. change (u "<@") with [ch_lt; ch_at]. change (u ">") with [ch_gt].
    reflexivity. }
  rewrite Heq in Hm |- *. rewrite findall_from_cons, Hm. f_equal.
  replace (length ((ch_at :: id ++ [ch_gt]) ++ tail) - length tail)%nat
    with (length (ch_at :: id ++ [ch_gt])).
  - apply findall_from_skip.
  - rewrite (length_app (ch_at :: id ++ [ch_gt])). lia.
Qed.

Lemma findall_from_joined (ids : list str) :
  Forall handle_shape ids →
  findall_from 0 (join (u ", ") (mention <$> ids)) = ids.
Proof.
  induction 1 as [|id ids Hid Hids IH]; [done|].
  rewrite fmap_cons. destruct ids as [|id' ids].
  - simpl. rewrite <- (app_nil_r (mention id)). by rewrite findall_from_mention.
  - change (join (u ", ") (mention id :: (mention <$> (id' :: ids))))
      with (mention id ++ u ", " ++ join (u ", ") (mention <$> (id' :: ids))).
    rewrite findall_from_mention by done. f_equal.
    change (u ", ") with [44; 32]. simpl app.
    rewrite findall_from_cons. change (mention_match (44 :: _)) with (@None (str * str)).
    rewrite findall_from_cons.
    change (mention_match (32 :: ?x)) with (@None (str * str)). exact IH.
Qed.

(** X16: the guest line of the bot's own message reads back as the
    guests.  For every text, extracting the mentions from the guest line
    built for the handles of that text gives exactly those handles
    without the owner's, in the same order. *)
Theorem guest_line_reads_back (user_id text : str) :
  findall_mentions (guest_list_str user_id (findall_mentions text))
    = filter (λ mid, mid ≠ user_id) (findall_mentions text).
Proof.
  unfold guest_list_str.
  destruct (findall_mentions text) as [|id ids] eqn:Hids; [by vm_compute|].
  apply findall_from_joined.
  apply Forall_forall. intros x [_ Hx]%list_elem_of_filter.
  rewrite <- Hids in Hx. by apply findall_from_shape in Hx as [? _].
Qed.

(** ** The owner's domain *)

Lemma split_at_segment (seg r : str) :
  ch_at ∉ seg → split_at (seg ++ ch_at :: r) = seg :: split_at r.
Proof.
  induction seg as [|c seg IH]; intros Hno; [done|].
  apply not_elem_of_cons in Hno as [Hc Hseg]. simpl.
  destruct (N.eqb_spec c ch_at) as [->|_]; [done|]. by rewrite IH.
Qed.

Lemma split_at_plain (seg : str) : ch_at ∉ seg → split_at seg = [seg].
Proof.
  induction seg as [|c seg IH]; intros Hno; [done|].
  apply not_elem_of_cons in Hno as [Hc Hseg]. simpl.
  destruct (N.eqb_spec c ch_at) as [->|_]; [done|]. by rewrite IH.
Qed.

Lemma split_at_second (name domain rest : str) :
  ch_at ∉ name → ch_at ∉ domain → (rest = [] ∨ head rest = Some ch_at) →
  split_at (name ++ [ch_at] ++ domain ++ rest) !! 1%nat = Some domain.
Proof.
  intros Hname Hdomain Hrest. simpl. rewrite split_at_segment by done.
  destruct Hrest as [->|Hrest].
  - by rewrite app_nil_r, split_at_plain.
  - destruct rest as [|c rest]; [done|]. injection Hrest as ->.
    by rewrite split_at_segment.
Qed.

(** X17: the domain that is compared with the organisation's is the text
    between the first and the second at sign of the owner's address (up
    to the end when there is only one), whatever follows.  In a run that
    reaches the lookup of the owner: if that text equals the
    organisation's domain in lower case, the run goes on to request
    credentials for the whole address (or ends by the overflow of the
    end time); otherwise it stops with the private reply that names the
    organisation's domain. *)
Theorem owner_domain_is_second_segment (py : PyRuntime) (E : Env) (command : Command)
    (fs : Files) (name domain rest : str) :
  directory_email E (cmd_user_id command) = Some (name ++ [ch_at] ++ domain ++ rest) →
  ch_at ∉ name → ch_at ∉ domain → (rest = [] ∨ head rest = Some ch_at) →
  EvUsersInfo (cmd_user_id command) ∈ trace (handle_mtg_command py E command fs) →
  (str_lower py domain = str_lower py (GOOGLE_WORKSPACE_DOMAIN E) →
     (∃ e, outcome (handle_mtg_command py E command fs) = Raised e ∧
           exn_cls e = OverflowError) ∨
     EvCredentials (name ++ [ch_at] ++ domain ++ rest)
       ∈ trace (handle_mtg_command py E command fs)) ∧
  (str_lower py domain ≠ str_lower py (GOOGLE_WORKSPACE_DOMAIN E) →
     ∃ before,
       handle_mtg_command py E command fs
         = (Returned, fs,
            before ++
              [EvUsersInfo (cmd_user_id command);
               EvRespond (u "このコマンドは " ++ GOOGLE_WORKSPACE_DOMAIN E
                          ++ u " ドメインのユーザーのみ利用できます。") None])).
Proof.
  intros Hdir Hname Hdomain Hrest.
  pose proof (split_at_second name domain rest Hname Hdomain Hrest) as Hsecond.
  mtg_cases py E command fs; unfold trace, outcome; simpl; intros Hin;
    try (exfalso; trace_in Hin; fail);
    rewrite Hdir in *; simplify_eq.
  all: split; intros Hdom; try done.
  all: try (right; find_event; fail).
  all: try (match goal with
            | |- context [[EvUsersInfo ?x; ?r]] =>
                match goal with
                | |- context [?a :: ?b :: ?c :: ?d :: ?e :: [EvUsersInfo x; r]] =>
                    by exists [a; b; c; d; e]
                | |- context [?a :: ?b :: ?c :: ?d :: [EvUsersInfo x; r]] =>
                    by exists [a; b; c; d]
                end
            end).
  all: try (left; eexists; split; [reflexivity|]).
  all: try (unfold end_time in Hend; repeat case_match; simplify_eq; done).
  all: right; rewrite !elem_of_cons, ?elem_of_app, ?elem_of_cons; auto 20.
Qed.

Lemma owner_domain_is_second_segment_witness :
  EvCredentials (u "alice@org.com@elsewhere.example")
    ∈ trace (handle_mtg_command py_ascii
               (demo_env_where "alice@org.com@elsewhere.example" None None demo_event)
               demo_command demo_files).
Proof.
  destruct (proj1 (owner_domain_is_second_segment py_ascii
             (demo_env_where "alice@org.com@elsewhere.example" None None demo_event)
             demo_command demo_files
             (u "alice") (u "org.com") (u "@elsewhere.example")
             ltac:(reflexivity)
             ltac:(vm_compute; intros H; trace_in H)
             ltac:(vm_compute; intros H; trace_in H)
             ltac:(right; reflexivity)
             ltac:(vm_compute; find_event))
           ltac:(reflexivity)) as [(e & He & _)|Hin].
  - exfalso. vm_compute in He. discriminate He.
  - exact Hin.
Defined.

(** ** The two patterns, from the text to the groups *)






(** ** Early exits and the calendar event *)

(** X20: an unreadable record stops [/mtg] before anything else
    happens.  With the lock acquired and the channel's file present, a
    failure of [open] or [read] ends the run by [return], whatever the
    command text is: the only reply is the private one with the
    exception's text, sent while the lock is held; the lock is released,
    the text is not even parsed (no usage hint) and no directory or
    Google call is made. *)
Theorem unreadable_prefix_stops_the_meeting (py : PyRuntime) (E : Env)
    (command : Command) (fs : Files) (content : str) (e : exn) :
  lock_acquire E (prefix_lockpath (cmd_channel_id command)) = None →
  fs !! prefix_filepath (cmd_channel_id command) = Some content →
  open_read_error E (prefix_filepath (cmd_channel_id command)) = Some e →
  handle_mtg_command py E command fs
    = (Returned, fs,
       [EvAck;
        EvLockAcquire (prefix_lockpath (cmd_channel_id command));
        EvExists (prefix_filepath (cmd_channel_id command));
        EvOpenRead (prefix_filepath (cmd_channel_id command));
        EvRespond (u "プレフィックスの取得中にエラーが発生しました: " ++ exn_str e) None;
        EvLockRelease (prefix_lockpath (cmd_channel_id command))]).
Proof.
  intros Hlock Hfile Hread.
  rewrite handle_mtg_command_run, load_prefix_run. cbv zeta.
  by rewrite Hlock, Hfile, Hread.
Qed.

Lemma unreadable_prefix_stops_the_meeting_witness :
  handle_mtg_command py_ascii
      (demo_env_where "alice@org.com" (Some forbidden) None demo_event)
      demo_command demo_files
    = (Returned, demo_files,
       [EvAck;
        EvLockAcquire (prefix_lockpath (u "C42"));
        EvExists (prefix_filepath (u "C42"));
        EvOpenRead (prefix_filepath (u "C42"));
        EvRespond (u "プレフィックスの取得中にエラーが発生しました: " ++ u "<HttpError 403>")
          None;
        EvLockRelease (prefix_lockpath (u "C42"))]).
Proof.
  apply (unreadable_prefix_stops_the_meeting py_ascii
           (demo_env_where "alice@org.com" (Some forbidden) None demo_event)
           demo_command demo_files (u "  [dev] ") forbidden); reflexivity.
Defined.

(** X21: a failure of the Google authentication stops the command
    before the calendar is touched.  When the credentials are requested
    and either they or the construction of the calendar service fail,
    the run ends by [return] with the private reply that carries the
    exception's text as its last event, no event is created and no Meet
    call is made; after failed credentials the calendar service is not
    even built. *)
Theorem auth_failure_stops_before_creation (py : PyRuntime) (E : Env)
    (command : Command) (fs : Files) (owner : str) (e : exn) :
  EvCredentials owner ∈ trace (handle_mtg_command py E command fs) →
  credentials_error E owner = Some e ∨
    (credentials_error E owner = None ∧ calendar_service_error E = Some e) →
  ∃ before,
    handle_mtg_command py E command fs
      = (Returned, fs,
         before ++ [EvRespond (u "Google APIの認証に失敗しました: " ++ exn_str e) None]) ∧
    Forall (λ ev, (stage ev ≤ 3)%nat) before ∧
    (credentials_error E owner = Some e → EvCalendarService ∉ before).
Proof.
  intros Hin Hfail. revert Hin.
  mtg_cases py E command fs; unfold trace; simpl; intros Hin;
    try (destruct Ht as [->|(cid & _ & [->|[url ->]])]);
    trace_in Hin; injection Hin as ->; simpl in Hcred;
    (destruct Hfail as [Hfail|[Hfail Hfail']]; try congruence).
  all: match goal with
       | |- context [auth_error_message ?e'] => assert (e' = e) as -> by congruence
       end.
  all: unfold auth_error_message.
  all: match goal with
       | |- context [[EvRespond ?m None]] =>
           match goal with
           | |- context [EvAck :: ?t] =>
               match t with
               | context C [[?a; ?b; EvRespond m None]] =>
                   let t' := context C [[a; b]] in
                   exists (EvAck :: t')
               | context C [[?a; EvRespond m None]] =>
                   let t' := context C [[a]] in
                   exists (EvAck :: t')
               end
           end
       end.
  all: split; [simpl; rewrite <- ?app_assoc; reflexivity|].
  all: split; [before_creation|].
  all: intros Hc Hcal; try congruence; trace_in Hcal.
Qed.

Lemma auth_failure_stops_before_creation_witness :
  ∃ before,
    handle_mtg_command py_ascii
        (demo_env_where "alice@org.com" None (Some connection_reset) demo_event)
        demo_command demo_files
      = (Returned, demo_files,
         before ++ [EvRespond (u "Google APIの認証に失敗しました: "
                               ++ u "Connection reset by peer") None]) ∧
    Forall (λ ev, (stage ev ≤ 3)%nat) before.
Proof.
  destruct (auth_failure_stops_before_creation py_ascii
              (demo_env_where "alice@org.com" None (Some connection_reset) demo_event)
              demo_command demo_files (u "alice@org.com") connection_reset
              ltac:(vm_compute; find_event)
              ltac:(left; reflexivity)) as (before & Hrun & Hstage & _).
  exists before. split; [exact Hrun | exact Hstage].
Defined.

Lemma configure_artifacts_no_conference (E : Env) (conference_id : option str)
    (fs : Files) :
  truthy_opt conference_id = false →
  configure_artifacts E conference_id fs
    = (Val (Some (u "会議IDがイベントから取得できなかったため、自動録画は設定されませんでした。")),
       fs, []).
Proof. intros H. unfold configure_artifacts. by rewrite H. Qed.

(** X22: an event that comes back without a conference identifier (none
    or an empty one) is still announced.  No Meet call is made: the
    creation is directly followed by the reply to the channel, whose
    text is the meeting details followed by the warning that the
    recording could not be set up for lack of the identifier, and the
    guest warning, if any. *)
Theorem event_without_conference_is_announced (py : PyRuntime) (E : Env)
    (command : Command) (fs : Files) (body : EventBody) (created : CreatedEvent) :
  EvEventsInsert body ∈ trace (handle_mtg_command py E command fs) →
  events_insert E body = inr created →
  truthy_opt (conferenceId created) = false →
  ∃ before time guests failed,
    handle_mtg_command py E command fs
      = (Val (), fs,
         before ++
           [EvEventsInsert body;
            EvRespond
              (meeting_details (summary body) time (cmd_user_id command) guests
                 (hangoutLink created) (htmlLink created)
               ++ [ch_nl] ++ u "自動録画: ⚠️ 設定に失敗しました ("
                    ++ u "会議IDがイベントから取得できなかったため、自動録画は設定されませんでした。"
                    ++ u ")"
               ++ guest_warning failed)
              in_channel]) ∧
    Forall (λ ev, (stage ev < 4)%nat) before.
Proof.
  intros Hin Hok Hcid. revert Hin.
  mtg_cases py E command fs; unfold trace; simpl; intros Hin;
    try (destruct Ht as [->|(cid' & Hcid' & [->|[url ->]])]);
    trace_in Hin; injection Hin as ->; simpl in Hinsert; rewrite Hok in Hinsert;
    try discriminate Hinsert; injection Hinsert as <-;
    rewrite (configure_artifacts_no_conference E _ fs Hcid) in Hrun;
    pose proof (f_equal (λ x, length x.2) Hrun) as Hlen; simpl in Hlen;
    try discriminate Hlen;
    pose proof (f_equal outcome Hrun) as Hmsg; injection Hmsg as <-.
  all: simpl;
       rewrite success_message_with_warning by (by vm_compute);
       match goal with
       | |- context [[?a; ?b; EvEventsInsert ?x; ?r]] =>
           change [a; b; EvEventsInsert x; r] with ([a; b] ++ [EvEventsInsert x; r])
       end;
       rewrite app_assoc, !app_comm_cons;
       eexists _, _, _, _; split; [reflexivity | before_creation].
Qed.

Lemma event_without_conference_is_announced_witness :
  ∃ before message,
    handle_mtg_command py_ascii
        (demo_env_where "alice@org.com" None None
           {| htmlLink := Some (u "https://calendar.example/e1");
              hangoutLink := None; conferenceId := Some [] |})
        demo_command demo_files
      = (Val (), demo_files, before ++ [EvRespond message in_channel]) ∧
    Forall (λ ev, (stage ev ≤ 4)%nat) before.
Proof.
  assert (∃ body,
            EvEventsInsert body
              ∈ trace (handle_mtg_command py_ascii
                         (demo_env_where "alice@org.com" None None
                            {| htmlLink := Some (u "https://calendar.example/e1");
                               hangoutLink := None; conferenceId := Some [] |})
                         demo_command demo_files)) as [body Hin].
  { eexists. vm_compute. find_event. }
  destruct (event_without_conference_is_announced py_ascii _ demo_command demo_files
              body _ Hin eq_refl eq_refl)
    as (before & time & guests & failed & Hrun & Hbefore).
  exists (before ++ [EvEventsInsert body]). eexists. split.
  - rewrite Hrun. by rewrite <- app_assoc.
  - apply Forall_app_2.
    + eapply Forall_impl; [exact Hbefore|]. intros ev. simpl. lia.
    + repeat constructor.
Defined.

(** X23: credentials are requested for nobody but the invoking user.
    The subject of every credential request of a run is the address that
    the directory has for the user who typed the command, and the text
    behind the first at sign of that address (up to the next one) is the
    organisation's domain in lower case; no guest's address and no
    address of another domain is ever impersonated. *)
Theorem credentials_only_for_the_owner (py : PyRuntime) (E : Env) (command : Command)
    (fs : Files) (subject : str) :
  EvCredentials subject ∈ trace (handle_mtg_command py E command fs) →
  directory_email E (cmd_user_id command) = Some subject ∧
  ∃ domain,
    split_at subject !! 1%nat = Some domain ∧
    str_lower py domain = str_lower py (GOOGLE_WORKSPACE_DOMAIN E).
Proof.
  mtg_cases py E command fs; unfold trace; simpl; intros Hin;
    try (destruct Ht as [->|(cid & _ & [->|[url ->]])]);
    trace_in Hin; injection Hin as <-; eauto.
Qed.

Lemma credentials_only_for_the_owner_witness :
  directory_email demo_env (cmd_user_id demo_command) = Some (u "alice@org.com").
Proof.
  apply (credentials_only_for_the_owner py_ascii demo_env demo_command demo_files
           (u "alice@org.com")).
  vm_compute. find_event.
Defined.

(** X24: a run creates at most one event, and that event starts at the
    time of the command and lasts the parsed number of minutes.  The body
    of every insertion carries the formatted current time as start, the
    formatted current time plus the duration as end, an empty
    description and a request identifier made of the user's handle and
    the start's timestamp; the duration is at most what a [timedelta]
    holds; and nothing is inserted before or after it in the run. *)
Theorem created_event_spans_the_duration (py : PyRuntime) (E : Env) (command : Command)
    (fs : Files) (body : EventBody) :
  EvEventsInsert body ∈ trace (handle_mtg_command py E command fs) →
  ∃ request before after,
    parse_command py (strip py (cmd_text command)) = Parsed request ∧
    start_dateTime body = isoformat py (now E) ∧
    end_dateTime body
      = isoformat py (now E + duration_minutes request * 60000000)%Z ∧
    description body = [] ∧
    requestId body = cmd_user_id command ++ u "-" ++ timestamp_str py (now E) ∧
    (duration_minutes request / 1440 ≤ 999999999)%Z ∧
    trace (handle_mtg_command py E command fs)
      = before ++ [EvEventsInsert body] ++ after ∧
    Forall (λ ev, (stage ev < 4)%nat) before ∧
    Forall (λ ev, (4 < stage ev)%nat) after.
Proof.
  assert (∀ start duration t,
            end_time start duration = inr t →
            t = (start + duration * 60000000)%Z ∧ (duration / 1440 ≤ 999999999)%Z)
    as Hspan.
  { intros start duration t. unfold end_time.
    destruct (999999999 <? duration / 1440)%Z eqn:Hdays; [done|].
    apply Z.ltb_ge in Hdays. cbv zeta. case_match; [done|]. by intros [= <-]. }
  mtg_cases py E command fs; unfold trace; simpl; intros Hin;
    try (destruct Ht as [->|(cid & _ & [->|[url ->]])]);
    trace_in Hin; injection Hin as ->;
    destruct (Hspan _ _ _ Hend) as [-> Hdays];
    exists request.
  all: match goal with
       | |- context [EvAck :: ?t] =>
           match t with
           | context C [EvEventsInsert ?b :: ?r] =>
               let t' := context C [@nil Event] in
               exists (EvAck :: t'), r
           end
       end.
  all: repeat (split; [first [reflexivity | exact Hdays]|]).
  all: try (split; [simpl; rewrite <- ?app_assoc; reflexivity|]).
  all: split; repeat first
           [ apply Forall_nil_2
           | apply Forall_cons_2; [simpl; lia|]
           | apply Forall_app_2
           | apply Forall_fmap, Forall_true; intros ?; simpl; lia ].
Qed.

Lemma created_event_spans_the_duration_witness :
  ∃ body request,
    EvEventsInsert body
      ∈ trace (handle_mtg_command py_ascii demo_env demo_command demo_files) ∧
    parse_command py_ascii (strip py_ascii (cmd_text demo_command)) = Parsed request ∧
    end_dateTime body
      = isoformat py_ascii (now demo_env + duration_minutes request * 60000000)%Z.
Proof.
  assert (∃ body,
            EvEventsInsert body
              ∈ trace (handle_mtg_command py_ascii demo_env demo_command demo_files))
    as [body Hin].
  { eexists. vm_compute. find_event. }
  destruct (created_event_spans_the_duration py_ascii demo_env demo_command demo_files
              body Hin) as (request & _ & _ & Hparse & _ & Hend & _).
  exists body, request. split; [exact Hin|]. split; [exact Hparse | exact Hend].
Defined.
